(** * EcoQuest backend: a shallow embedding of [backend/main.py]

    The service keeps three tables (users, challenges, submissions) behind
    a per-request ORM session and exposes six routes.  The embedding follows
    the source function by function:

    - rows are records, tables are lists in insertion order;
    - a request handler is a state-and-error computation over a [Session]
      (the unit of work opened by [get_db]); only [commit] makes pending
      changes durable, and an [HTTPException] ends the request;
    - the two external libraries the handlers call, the password context
      (passlib) and the token codec (python-jose), are interfaces: a class of
      operations each, with the properties the libraries document stated as
      separate law classes; the exception the password context raises on a
      secret with a NUL byte is part of the handlers;
    - the clock read by [datetime.utcnow()] and the salt drawn by the password
      hash are explicit inputs of the handlers that use them.

    Integers are Python integers ([Z]); an integer handed to the database
    must fit its signed 64-bit INTEGER column, or the statement raises and
    the request is answered with a 500.  Strings are byte strings. *)

From Stdlib Require Import ZArith List String Ascii Bool Lia.
From Stdlib Require Import Permutation Sorted Orders Mergesort.
From Stdlib Require Import DecimalString DecimalZ DecimalPos.
Import ListNotations.

Open Scope string_scope.
Open Scope Z_scope.

(* ------------------------------------------------------------------ *)
(** ** Python built-ins used by the handlers *)

(** [s.startswith(prefix)] *)
Definition startswith (s prefix : string) : bool := String.prefix prefix s.

(** [s.split(sep)] for a one-character separator: every occurrence of
    [sep] cuts, empty pieces are kept, and the result is never empty. *)
Fixpoint split (s : string) (sep : ascii) : list string :=
  match s with
  | EmptyString => [EmptyString]
  | String a rest =>
      if Ascii.eqb a sep then EmptyString :: split rest sep
      else match split rest sep with
           | w :: ws => String a w :: ws
           | [] => [String a EmptyString]
           end
  end.

(** [str(n)] for an integer, as interpolated by an f-string. *)
Definition str (n : Z) : string := NilZero.string_of_int (Z.to_int n).

(** [datetime] values are microseconds since the epoch and [timedelta]
    values are microseconds; [datetime + timedelta] is addition. *)
Definition datetime := Z.
Definition timedelta := Z.

Definition timedelta_minutes (minutes : Z) : timedelta := minutes * 60000000.

(** [calendar.timegm(d.utctimetuple())]: whole seconds since the epoch, the
    microsecond field is dropped. *)
Definition timegm (d : datetime) : Z := d / 1000000.

(* ------------------------------------------------------------------ *)
(** ** CONFIG *)

Definition SECRET_KEY : string := "ecoquestsecret".
Definition ALGORITHM : string := "HS256".
Definition ACCESS_TOKEN_EXPIRE_MINUTES : Z := 60.

(* ------------------------------------------------------------------ *)
(** ** MODELS *)

Module User.
Record t : Type := Build
  { id : Z;
    username : string;
    hashed_password : string;
    role : string;
    points : Z }.

Definition with_points (u : t) (p : Z) : t :=
  {| id := id u; username := username u;
     hashed_password := hashed_password u; role := role u; points := p |}.
End User.

Module Challenge.
Record t : Type := Build
  { id : Z;
    title : string;
    description : string;
    points : Z }.
End Challenge.

Module Submission.
Record t : Type := Build
  { id : Z;
    proof_text : string;
    status : string;
    user_id : Z;
    challenge_id : Z }.
End Submission.

(** The three tables, each in insertion (rowid) order. *)
Record Database : Type := mkDatabase
  { users : list User.t;
    challenges : list Challenge.t;
    submissions : list Submission.t }.

(** [Base.metadata.create_all] on a fresh file. *)
Definition empty_database : Database :=
  {| users := []; challenges := []; submissions := [] |}.

(** An integer primary key left unset receives one more than the largest
    key of the table (1 in an empty table). *)
Definition next_id (ids : list Z) : Z := fold_right Z.max 0 ids + 1.

(** An INTEGER column holds a signed 64-bit value.  Binding a Python int
    outside this range as a statement parameter raises [OverflowError]. *)
Definition INT64_MIN : Z := - 2 ^ 63.
Definition INT64_MAX : Z := 2 ^ 63 - 1.

Definition fits_int64 (n : Z) : bool := (INT64_MIN <=? n) && (n <=? INT64_MAX).

(* ------------------------------------------------------------------ *)
(** ** SCHEMAS *)

Record RegisterRequest : Type :=
  { reg_username : string; reg_password : string }.

Record LoginRequest : Type :=
  { login_username : string; login_password : string }.

Record ChallengeCreate : Type :=
  { new_title : string; new_description : string; new_points : Z }.

Record SubmissionCreate : Type :=
  { sub_challenge_id : Z; sub_proof_text : string }.

(* ------------------------------------------------------------------ *)
(** ** Sessions and handlers *)

Record HTTPException : Type := mkHTTPException
  { status_code : Z; detail : string }.

(** What the server answers when a handler lets any other exception
    escape. *)
Definition internal_server_error : HTTPException :=
  mkHTTPException 500 "Internal Server Error".

Inductive Result (A : Type) : Type :=
| Ok (a : A)
| Raise (e : HTTPException).
Arguments Ok {A} a.
Arguments Raise {A} e.

(** A session sees its own pending changes in [pending]; [stored] is what
    the database file holds.  [params] are the integers, taken from the
    request or computed by the handler, that the pending statements will
    bind when they are flushed.  (Keys read from stored rows are in range,
    being stored.) *)
Record Session : Type := mkSession
  { stored : Database;
    pending : Database;
    params : list Z }.

Definition Handler (A : Type) : Type := Session -> Result A * Session.

Definition ret {A} (a : A) : Handler A := fun s => (Ok a, s).

Definition raise {A} (e : HTTPException) : Handler A := fun s => (Raise e, s).

Definition bind {A B} (m : Handler A) (k : A -> Handler B) : Handler B :=
  fun s =>
    match m s with
    | (Ok a, s') => k a s'
    | (Raise e, s') => (Raise e, s')
    end.

Notation "x <- m ;; k" := (bind m (fun x => k))
  (at level 61, m at next level, right associativity).
Notation "m ;;; k" := (bind m (fun _ => k))
  (at level 61, right associativity).

(** [get_db]: open a session on the database, run the handler, close the
    session.  Whatever was not committed is discarded by [db.close()]. *)
Definition get_db {A} (h : Handler A) (db : Database) : Result A * Database :=
  let '(r, s) := h {| stored := db; pending := db; params := [] |} in
  (r, stored s).

(** [db.query(User).filter(User.username == name).first()] *)
Definition first_user_by_username (name : string) : Handler (option User.t) :=
  fun s => (Ok (find (fun u => String.eqb (User.username u) name)
                     (users (pending s))), s).

(** [db.query(Challenge).filter(Challenge.id == cid).first()]; [cid] comes
    from the request and is bound as the parameter of the SELECT. *)
Definition first_challenge_by_id (cid : Z) : Handler (option Challenge.t) :=
  fun s =>
    if fits_int64 cid then
      (Ok (find (fun c => Challenge.id c =? cid) (challenges (pending s))), s)
    else (Raise internal_server_error, s).

(** [db.query(Challenge).all()] *)
Definition all_challenges : Handler (list Challenge.t) :=
  fun s => (Ok (challenges (pending s)), s).

(** [db.add(User(...))]: the row gets its key and column defaults. *)
Definition add_user (name hashed role : string) (pts : Z) : Handler unit :=
  fun s =>
    let d := pending s in
    let row := User.Build (next_id (map User.id (users d))) name hashed role pts in
    (Ok tt, {| stored := stored s;
               pending := {| users := users d ++ [row];
                             challenges := challenges d;
                             submissions := submissions d |};
               params := params s ++ [pts] |}).

(** [db.add(Challenge(...))] *)
Definition add_challenge (ttl descr : string) (pts : Z) : Handler unit :=
  fun s =>
    let d := pending s in
    let row := Challenge.Build (next_id (map Challenge.id (challenges d)))
                               ttl descr pts in
    (Ok tt, {| stored := stored s;
               pending := {| users := users d;
                             challenges := challenges d ++ [row];
                             submissions := submissions d |};
               params := params s ++ [pts] |}).

(** [db.add(Submission(...))] *)
Definition add_submission (text st : string) (uid cid : Z) : Handler unit :=
  fun s =>
    let d := pending s in
    let row := Submission.Build (next_id (map Submission.id (submissions d)))
                                text st uid cid in
    (Ok tt, {| stored := stored s;
               pending := {| users := users d;
                             challenges := challenges d;
                             submissions := submissions d ++ [row] |};
               params := params s |}).

(** Assignment to [user.points] on a loaded row: the unit of work records
    [UPDATE users SET points = v WHERE id = uid]. *)
Definition set_points (uid v : Z) (rows : list User.t) : list User.t :=
  map (fun r => if User.id r =? uid then User.with_points r v else r) rows.

Definition assign_points (u : User.t) (v : Z) : Handler unit :=
  fun s =>
    let d := pending s in
    (Ok tt, {| stored := stored s;
               pending := {| users := set_points (User.id u) v (users d);
                             challenges := challenges d;
                             submissions := submissions d |};
               params := params s ++ [v] |}).

(** [db.commit()]: the pending statements are flushed and made durable
    together.  A parameter outside the column's range makes the flush raise;
    nothing is stored then, and the session is discarded with its changes. *)
Definition commit : Handler unit :=
  fun s =>
    if forallb fits_int64 (params s) then
      (Ok tt, {| stored := pending s; pending := pending s; params := [] |})
    else (Raise internal_server_error, s).

(* ------------------------------------------------------------------ *)
(** ** External libraries, as interfaces *)

(** [pwd_context = CryptContext(schemes=["bcrypt"])].  The class is the
    scheme on the secrets it takes; hashing draws a fresh salt, passed here
    as an argument. *)
Class CryptContext : Type :=
  { pwd_context_hash : string -> string -> string;   (* salt, secret *)
    pwd_context_verify : string -> string -> bool }. (* secret, hash *)

(** A secret verifies against every hash made from it. *)
Class CryptContextLaws (P : CryptContext) : Prop :=
  { verify_hash : forall salt secret,
      pwd_context_verify secret (pwd_context_hash salt secret) = true }.

(** The claims the service puts in a token.  [exp] is in whole seconds. *)
Record Claims : Type := mkClaims
  { sub : option string;
    exp : option Z }.

(** [jose.exceptions]: [ExpiredSignatureError] and [JWTClaimsError] are
    subclasses of [JWTError]. *)
Inductive JWTError : Type :=
| JWTError_other
| ExpiredSignatureError
| JWTClaimsError.

(** [jwt.encode(claims, key, algorithm=ALGORITHM)] and
    [jwt.decode(token, key, algorithms=[ALGORITHM])]; decoding reads the
    clock, passed here in whole seconds. *)
Class JWT : Type :=
  { jwt_encode : Claims -> string -> string;
    jwt_decode : string -> string -> Z -> JWTError + Claims }.

Fixpoint occurs (c : ascii) (s : string) : bool :=
  match s with
  | EmptyString => false
  | String a rest => Ascii.eqb a c || occurs c rest
  end.

Definition has_space (s : string) : bool := occurs " " s.

(** The bcrypt handler refuses a secret that contains a NUL byte: both
    [pwd_context.hash] and [pwd_context.verify] raise on it. *)
Definition has_nul (s : string) : bool := occurs "000"%char s.

(** A token decodes under the key that signed it unless its [exp] is
    earlier than the clock; a token is a run of base64url characters and
    dots. *)
Class JWTLaws (J : JWT) : Prop :=
  { decode_encode : forall c key now,
      jwt_decode (jwt_encode c key) key now =
      match exp c with
      | Some e => if e <? now then inl ExpiredSignatureError else inr c
      | None => inr c
      end;
    encode_no_space : forall c key, has_space (jwt_encode c key) = false }.

(** What decoding refuses before it looks at any claim: a token that is
    not three dot-separated segments, and a token signed under another key.
    Both raise a plain [JWTError]. *)
Class JWTRejects (J : JWT) : Prop :=
  { decode_segments : forall token key now,
      List.length (split token ".") <> 3%nat ->
      jwt_decode token key now = inl JWTError_other;
    decode_wrong_key : forall c key key' now,
      key <> key' ->
      jwt_decode (jwt_encode c key) key' now = inl JWTError_other }.

(* ------------------------------------------------------------------ *)
(** ** Startup *)

Section Service.

Context {pwd_context : CryptContext} {jwt : JWT}.

(** [pwd_context.hash(secret)] and [pwd_context.verify(secret, hash)] as
    the handlers call them: the exception on a refused secret escapes. *)
Definition hash_password (salt secret : string) : Handler string :=
  if has_nul secret then raise internal_server_error
  else ret (pwd_context_hash salt secret).

Definition verify_password (secret hashed : string) : Handler bool :=
  if has_nul secret then raise internal_server_error
  else ret (pwd_context_verify secret hashed).

Definition seed_admin (salt : string) : Handler unit :=
  admin <- first_user_by_username "admin" ;;
  match admin with
  | Some _ => ret tt
  | None =>
      hashed <- hash_password salt "admin123" ;;
      add_user "admin" hashed "admin" 0 ;;;
      commit
  end.

(* ------------------------------------------------------------------ *)
(** ** UTILS *)

(** [utcnow] is the value [datetime.utcnow()] returns.  [jwt.encode] turns
    a datetime-valued [exp] into whole seconds with [timegm]. *)
Definition create_access_token (data : Claims) (expires_delta : option timedelta)
    (utcnow : datetime) : string :=
  let to_encode := data in
  let delta :=
    match expires_delta with
    | Some d => if d =? 0 then timedelta_minutes 15 else d
    | None => timedelta_minutes 15
    end in
  let expire := utcnow + delta in
  let to_encode := {| sub := sub to_encode; exp := Some (timegm expire) |} in
  jwt_encode to_encode SECRET_KEY.

Definition get_current_user (authorization : string) (utcnow : datetime)
  : Handler User.t :=
  if negb (startswith authorization "Bearer ") then
    raise (mkHTTPException 401 "Invalid auth header")
  else
    (* [authorization.split(" ")[1]]; an IndexError would surface as a 500,
       but after the prefix test the list has at least two pieces *)
    token <- match nth_error (split authorization " ") 1 with
             | Some t => ret t
             | None => raise (mkHTTPException 500 "Internal Server Error")
             end ;;
    (* [except JWTError] catches every decoding failure, subclasses included *)
    username <- match jwt_decode token SECRET_KEY (timegm utcnow) with
                | inr payload =>
                    match sub payload with
                    | Some "" | None =>
                        raise (mkHTTPException 401 "Invalid token")
                    | Some name => ret name
                    end
                | inl _ => raise (mkHTTPException 401 "Invalid token")
                end ;;
    user <- first_user_by_username username ;;
    match user with
    | None => raise (mkHTTPException 404 "User not found")
    | Some u => ret u
    end.

(* ------------------------------------------------------------------ *)
(** ** ROUTES *)

Record LoginResponse : Type :=
  { access_token : string;
    token_type : string;
    resp_role : string;
    resp_username : string;
    resp_points : Z }.

Record LeaderboardEntry : Type :=
  { lb_username : string; lb_points : Z; lb_role : string }.

Definition register (req : RegisterRequest) (salt : string) : Handler string :=
  taken <- first_user_by_username (reg_username req) ;;
  match taken with
  | Some _ => raise (mkHTTPException 400 "Username taken")
  | None =>
      hashed <- hash_password salt (reg_password req) ;;
      (* points is left to its column default, 0 *)
      add_user (reg_username req) hashed "student" 0 ;;;
      commit ;;;
      ret "User registered"
  end.

Definition login (req : LoginRequest) (utcnow : datetime)
  : Handler LoginResponse :=
  user <- first_user_by_username (login_username req) ;;
  match user with
  | None => raise (mkHTTPException 400 "Invalid credentials")
  | Some u =>
      verified <- verify_password (login_password req) (User.hashed_password u) ;;
      if negb verified
      then raise (mkHTTPException 400 "Invalid credentials")
      else
        let token :=
          create_access_token
            {| sub := Some (login_username req); exp := None |}
            (Some (timedelta_minutes ACCESS_TOKEN_EXPIRE_MINUTES)) utcnow in
        ret {| access_token := token;
               token_type := "bearer";
               resp_role := User.role u;
               resp_username := User.username u;
               resp_points := User.points u |}
  end.

Definition get_challenges : Handler (list Challenge.t) := all_challenges.

Definition create_challenge (ch : ChallengeCreate) (authorization : string)
    (utcnow : datetime) : Handler string :=
  current_user <- get_current_user authorization utcnow ;;
  if negb (String.eqb (User.role current_user) "admin") then
    raise (mkHTTPException 403 "Only admin can create challenges")
  else
    add_challenge (new_title ch) (new_description ch) (new_points ch) ;;;
    commit ;;;
    ret "Challenge created".

Definition submit (sb : SubmissionCreate) (authorization : string)
    (utcnow : datetime) : Handler string :=
  current_user <- get_current_user authorization utcnow ;;
  challenge <- first_challenge_by_id (sub_challenge_id sb) ;;
  match challenge with
  | None => raise (mkHTTPException 404 "Challenge not found")
  | Some c =>
      assign_points current_user (User.points current_user + Challenge.points c) ;;;
      add_submission (sub_proof_text sb) "completed"
                     (User.id current_user) (sub_challenge_id sb) ;;;
      commit ;;;
      ret ("Challenge completed! " ++ str (Challenge.points c) ++ " points added.")
  end.

End Service.

(** [db.query(User).order_by(User.points.desc()).all()]: a row comes before
    another when its points are at least as large.  SQL leaves the order of
    rows with equal points open; here it is the merge sort's, and nothing
    below depends on it. *)
Module PointsDesc <: TotalLeBool.
Definition t := User.t.
Definition leb (u v : t) : bool := User.points v <=? User.points u.
Theorem leb_total : forall u v, leb u v = true \/ leb v u = true.
Proof. intros u v; unfold leb; lia. Qed.
End PointsDesc.

Module UserSort := Sort PointsDesc.

Definition order_by_points_desc (rows : list User.t) : list User.t :=
  UserSort.sort rows.

Definition leaderboard_entry (u : User.t) : LeaderboardEntry :=
  {| lb_username := User.username u;
     lb_points := User.points u;
     lb_role := User.role u |}.

Definition leaderboard : Handler (list LeaderboardEntry) :=
  fun s => (Ok (map leaderboard_entry (order_by_points_desc (users (pending s)))), s).

(* ------------------------------------------------------------------ *)
(** ** The service as a transition system *)

(** One event of the process: a start of the program (which seeds the
    administrator) or one request with its inputs. *)
Inductive Event : Type :=
| Startup (salt : string)
| PostRegister (req : RegisterRequest) (salt : string)
| PostLogin (req : LoginRequest) (utcnow : datetime)
| GetChallenges
| PostChallenges (ch : ChallengeCreate) (authorization : string) (utcnow : datetime)
| PostSubmissions (sb : SubmissionCreate) (authorization : string) (utcnow : datetime)
| GetLeaderboard.

Section Transitions.

Context {pwd_context : CryptContext} {jwt : JWT}.

(** The database after an event; responses are dropped. *)
Definition step (ev : Event) (db : Database) : Database :=
  match ev with
  | Startup salt => snd (get_db (seed_admin salt) db)
  | PostRegister req salt => snd (get_db (register req salt) db)
  | PostLogin req now => snd (get_db (login req now) db)
  | GetChallenges => snd (get_db get_challenges db)
  | PostChallenges ch auth now => snd (get_db (create_challenge ch auth now) db)
  | PostSubmissions sb auth now => snd (get_db (submit sb auth now) db)
  | GetLeaderboard => snd (get_db leaderboard db)
  end.

(** Reachable databases: the file is created empty, the program starts,
    and events follow one at a time. *)
Inductive reachable : Database -> Prop :=
| reachable_start salt :
    reachable (step (Startup salt) empty_database)
| reachable_step ev db :
    reachable db -> reachable (step ev db).

Definition run (evs : list Event) (db : Database) : Database :=
  fold_left (fun d ev => step ev d) evs db.

End Transitions.

(* ------------------------------------------------------------------ *)
(** ** Derived quantities the properties speak about *)

(** The row a query by primary key returns. *)
Definition user_by_id (db : Database) (uid : Z) : option User.t :=
  find (fun u => User.id u =? uid) (users db).

Definition user_by_username (db : Database) (name : string) : option User.t :=
  find (fun u => String.eqb (User.username u) name) (users db).

Definition challenge_by_id (db : Database) (cid : Z) : option Challenge.t :=
  find (fun c => Challenge.id c =? cid) (challenges db).

(** Points of the challenge a submission row references (0 if dangling). *)
Definition reward (db : Database) (s : Submission.t) : Z :=
  match challenge_by_id db (Submission.challenge_id s) with
  | Some c => Challenge.points c
  | None => 0
  end.

Definition sumZ (l : list Z) : Z := fold_right Z.add 0 l.

Definition submissions_of (db : Database) (uid : Z) : list Submission.t :=
  filter (fun s => Submission.user_id s =? uid) (submissions db).

(** Sum of rewards over the user's submission rows, one term per row. *)
Definition earned (db : Database) (uid : Z) : Z :=
  sumZ (map (reward db) (submissions_of db uid)).

(** Does the user have at least one submission for the challenge? *)
Definition has_submission (db : Database) (uid cid : Z) : bool :=
  existsb (fun s => (Submission.user_id s =? uid) &&
                    (Submission.challenge_id s =? cid)) (submissions db).

(** The total as the specification words it: the sum of the points of all
    challenges for which the user has at least one submission, one term per
    challenge.  Compare [earned], which the handlers maintain. *)
Definition completed_challenges_total (db : Database) (uid : Z) : Z :=
  sumZ (map Challenge.points
            (filter (fun c => has_submission db uid (Challenge.id c))
                    (challenges db))).

(** The same submission sent once per (header, clock) pair. *)
Definition resubmissions (sb : SubmissionCreate) (reqs : list (string * datetime))
  : list Event :=
  map (fun r => PostSubmissions sb (fst r) (snd r)) reqs.

(** What a submission row of user [uid] for challenge [cid] looks like. *)
Definition completed_by (uid cid : Z) (row : Submission.t) : Prop :=
  Submission.user_id row = uid /\
  Submission.challenge_id row = cid /\
  Submission.status row = "completed".

(** The database a successful request leaves behind. *)
Definition submission_row (db : Database) (sb : SubmissionCreate) (u : User.t)
  : Submission.t :=
  Submission.Build (next_id (map Submission.id (submissions db)))
                   (sub_proof_text sb) "completed" (User.id u) (sub_challenge_id sb).

Definition after_submit (db : Database) (sb : SubmissionCreate) (u : User.t)
    (c : Challenge.t) : Database :=
  {| users := set_points (User.id u) (User.points u + Challenge.points c) (users db);
     challenges := challenges db;
     submissions := submissions db ++ [submission_row db sb u] |}.

Definition after_create_challenge (db : Database) (ch : ChallengeCreate) : Database :=
  {| users := users db;
     challenges := challenges db ++
       [Challenge.Build (next_id (map Challenge.id (challenges db)))
                        (new_title ch) (new_description ch) (new_points ch)];
     submissions := submissions db |}.

Definition after_add_user (db : Database) (name hashed role : string) : Database :=
  {| users := users db ++
       [User.Build (next_id (map User.id (users db))) name hashed role 0];
     challenges := challenges db;
     submissions := submissions db |}.

(** The four ways an event can leave the database. *)
Inductive effect (db : Database) : Database -> Prop :=
| effect_none : effect db db
| effect_add_user name hashed role :
    user_by_username db name = None ->
    effect db (after_add_user db name hashed role)
| effect_add_challenge ch :
    effect db (after_create_challenge db ch)
| effect_submit sb u c :
    user_by_username db (User.username u) = Some u ->
    challenge_by_id db (sub_challenge_id sb) = Some c ->
    effect db (after_submit db sb u c).

(** The consistency the schema and the handlers maintain. *)
Record consistent (db : Database) : Prop :=
  { user_ids_unique : NoDup (map User.id (users db));
    usernames_unique : NoDup (map User.username (users db));
    submission_user_exists : forall s, In s (submissions db) ->
      In (Submission.user_id s) (map User.id (users db));
    submission_challenge_exists : forall s, In s (submissions db) ->
      In (Submission.challenge_id s) (map Challenge.id (challenges db));
    points_are_earned : forall u, In u (users db) ->
      User.points u = earned db (User.id u) }.

(* ------------------------------------------------------------------ *)
(** ** Reference implementations of the two interfaces

    Small executable stand-ins for passlib and python-jose, used to run the
    handlers on concrete requests.  They keep the shape of the real ones (a
    salted hash string; a three-part dotted token over a restricted
    alphabet that names the key, the subject and the expiry) and satisfy the
    law classes; they make no claim of secrecy. *)

Module Reference.

Definition hash (salt secret : string) : string := (secret ++ "$") ++ salt.

Definition verify (secret hashed : string) : bool :=
  String.prefix (secret ++ "$") hashed.

Definition hex_digit (n : N) : ascii :=
  match String.get (N.to_nat n) "0123456789abcdef" with
  | Some c => c
  | None => "0"%char
  end.

Definition hex_value (c : ascii) : option N :=
  let n := N_of_ascii c in
  if ((48 <=? n) && (n <=? 57))%N then Some (n - 48)%N
  else if ((97 <=? n) && (n <=? 102))%N then Some (n - 87)%N
  else None.

Fixpoint hex (s : string) : string :=
  match s with
  | EmptyString => EmptyString
  | String a rest =>
      String (hex_digit (N_of_ascii a / 16))
        (String (hex_digit (N_of_ascii a mod 16)) (hex rest))
  end.

Fixpoint unhex (s : string) : option string :=
  match s with
  | EmptyString => Some EmptyString
  | String h (String l rest) =>
      match hex_value h, hex_value l, unhex rest with
      | Some x, Some y, Some r => Some (String (ascii_of_N (16 * x + y)) r)
      | _, _, _ => None
      end
  | String _ EmptyString => None
  end.

(** An optional field: absent is the empty string, present is [=] and
    the hex of the value. *)
Definition field (v : option string) : string :=
  match v with
  | None => ""
  | Some s => String "=" (hex s)
  end.

Definition unfield (s : string) : option (option string) :=
  match s with
  | EmptyString => Some None
  | String c rest =>
      if Ascii.eqb c "=" then option_map Some (unhex rest) else None
  end.

Definition int_of_str (s : string) : option Z :=
  option_map Z.of_int (NilZero.int_of_string s).

Definition encode (c : Claims) (key : string) : string :=
  hex key ++ "." ++ field (sub c) ++ "." ++ field (option_map str (exp c)).

Definition decode (token key : string) (now : Z) : JWTError + Claims :=
  match split token "." with
  | [k; s; e] =>
      match unhex k, unfield s, unfield e with
      | Some k', Some sb, Some ex =>
          if negb (String.eqb k' key) then inl JWTError_other
          else
            match ex with
            | None => inr {| sub := sb; exp := None |}
            | Some digits =>
                match int_of_str digits with
                | None => inl JWTClaimsError
                | Some t =>
                    if t <? now then inl ExpiredSignatureError
                    else inr {| sub := sb; exp := Some t |}
                end
            end
      | _, _, _ => inl JWTError_other
      end
  | _ => inl JWTError_other
  end.

#[export] Instance pwd_context : CryptContext :=
  {| pwd_context_hash := hash; pwd_context_verify := verify |}.

#[export] Instance jwt : JWT :=
  {| jwt_encode := encode; jwt_decode := decode |}.

End Reference.

(** A scenario on the reference implementations: the program starts, the
    administrator logs in and creates a challenge, alice registers, logs in
    and submits it; later the administrator creates a challenge with a
    negative reward. *)
Module Scenario.
Import Reference.

Definition t0 : datetime := 1700000000000000.


Definition db0 : Database := step (Startup "s0") empty_database.

Definition bearer_of (r : Result LoginResponse * Database) : string :=
  match fst r with
  | Ok resp => "Bearer " ++ access_token resp
  | Raise _ => ""
  end.

Definition admin_auth : string :=
  bearer_of (get_db (login {| login_username := "admin";
                              login_password := "admin123" |} t0) db0).

Definition recycle : ChallengeCreate :=
  {| new_title := "Recycle"; new_description := "Recycle 1kg"; new_points := 10 |}.

Definition penalty : ChallengeCreate :=
  {| new_title := "Penalty"; new_description := "Late"; new_points := -5 |}.

Definition alice : RegisterRequest :=
  {| reg_username := "alice"; reg_password := "pw1" |}.

Definition alice_login : LoginRequest :=
  {| login_username := "alice"; login_password := "pw1" |}.

(** One challenge, two users, no submission yet. *)
Definition db1 : Database :=
  run [PostChallenges recycle admin_auth t0; PostRegister alice "s1"] db0.

Definition alice_token : string :=
  match fst (get_db (login alice_login t0) db1) with
  | Ok resp => access_token resp
  | Raise _ => ""
  end.

Definition alice_auth : string := "Bearer " ++ alice_token.

Definition submit_recycle : SubmissionCreate :=
  {| sub_challenge_id := 1; sub_proof_text := "photo" |}.


Definition submit_missing : SubmissionCreate :=
  {| sub_challenge_id := 99; sub_proof_text := "nothing" |}.

(** alice has submitted the first challenge once. *)
Definition db2 : Database :=
  step (PostSubmissions submit_recycle alice_auth t0) db1.


(** The rows of alice and of the first challenge. *)
Definition alice_row (pts : Z) : User.t :=
  User.Build 2 "alice" "pw1$s1" "student" pts.

Definition recycle_row : Challenge.t :=
  Challenge.Build 1 "Recycle" "Recycle 1kg" 10.

(** At the edge of the points column: a challenge worth the largest
    storable value, which alice submits once. *)
Definition jackpot : ChallengeCreate :=
  {| new_title := "Jackpot"; new_description := "All in"; new_points := INT64_MAX |}.

Definition jackpot_row : Challenge.t :=
  Challenge.Build 2 "Jackpot" "All in" INT64_MAX.

Definition submit_jackpot : SubmissionCreate :=
  {| sub_challenge_id := 2; sub_proof_text := "ticket" |}.

Definition db4 : Database :=
  step (PostChallenges jackpot admin_auth t0) db1.

Definition db5 : Database :=
  step (PostSubmissions submit_jackpot alice_auth t0) db4.
End Scenario.

(* ------------------------------------------------------------------ *)
(** ** Further quantities: responses, table shape, totals *)

Definition error_of {A} (r : Result A) : option HTTPException :=
  match r with
  | Ok _ => None
  | Raise e => Some e
  end.

Section Responses.

Context {pwd_context : CryptContext} {jwt : JWT}.

(** The [HTTPException] an event is answered with, if any. *)
Definition response_error (ev : Event) (db : Database) : option HTTPException :=
  match ev with
  | Startup salt => error_of (fst (get_db (seed_admin salt) db))
  | PostRegister req salt => error_of (fst (get_db (register req salt) db))
  | PostLogin req now => error_of (fst (get_db (login req now) db))
  | GetChallenges => error_of (fst (get_db get_challenges db))
  | PostChallenges ch auth now =>
      error_of (fst (get_db (create_challenge ch auth now) db))
  | PostSubmissions sb auth now =>
      error_of (fst (get_db (submit sb auth now) db))
  | GetLeaderboard => error_of (fst (get_db leaderboard db))
  end.

End Responses.

(** The columns of a user row that no handler assigns after creation. *)
Definition identity_columns (u : User.t) : Z * string * string * string :=
  (User.id u, User.username u, User.hashed_password u, User.role u).

(** Keys 1, 2, ..., n in table order. *)
Definition numbered_from_one (ids : list Z) : Prop :=
  ids = map Z.of_nat (seq 1 (List.length ids)).

Definition admins (db : Database) : list User.t :=
  filter (fun u => String.eqb (User.role u) "admin") (users db).

Definition total_points (db : Database) : Z :=
  sumZ (map User.points (users db)).

Definition total_rewards (db : Database) : Z :=
  sumZ (map (reward db) (submissions db)).

(** What holds of the rows beyond [consistent]. *)
Record well_formed (db : Database) : Prop :=
  { user_ids_numbered : numbered_from_one (map User.id (users db));
    challenge_ids_numbered : numbered_from_one (map Challenge.id (challenges db));
    submission_ids_numbered : numbered_from_one (map Submission.id (submissions db));
    submissions_completed : forall s, In s (submissions db) ->
      Submission.status s = "completed";
    admin_first : exists a rest,
      users db = a :: rest /\
      User.username a = "admin" /\ User.role a = "admin" /\
      forall u, In u rest -> User.role u = "student" }.

(* ================================================================== *)
(** * Properties *)

Import Reference Scenario.

(** ** Strings *)

Lemma prefix_app (a b : string) : String.prefix a (a ++ b) = true.
Proof.
  induction a as [|c a IH]; simpl.
  - now destruct b.
  - destruct (ascii_dec c c) as [_|n]; [exact IH | now elim n].
Qed.

Lemma occurs_app (c : ascii) (a b : string) :
  occurs c (a ++ b) = occurs c a || occurs c b.
Proof.
  induction a as [|x a IH]; simpl; [reflexivity|].
  now rewrite IH, orb_assoc.
Qed.

Lemma split_without_sep (s : string) (sep : ascii) :
  occurs sep s = false -> split s sep = [s].
Proof.
  induction s as [|a s IH]; simpl; intros H; [reflexivity|].
  apply orb_false_iff in H as [Ha Hs].
  now rewrite Ha, (IH Hs).
Qed.

Lemma split_at_sep (a rest : string) (sep : ascii) :
  occurs sep a = false ->
  split (a ++ String sep rest) sep = a :: split rest sep.
Proof.
  induction a as [|x a IH]; simpl; intros H.
  - now rewrite Ascii.eqb_refl.
  - apply orb_false_iff in H as [Hx Ha].
    now rewrite Hx, (IH Ha).
Qed.

(** The token of a well-formed header is what follows [Bearer ]. *)
Lemma bearer_token (token : string) :
  has_space token = false ->
  startswith ("Bearer " ++ token) "Bearer " = true /\
  nth_error (split ("Bearer " ++ token) " ") 1 = Some token.
Proof.
  intros H; split.
  - apply (prefix_app "Bearer " token).
  - change ("Bearer " ++ token) with ("Bearer" ++ String " " token).
    rewrite split_at_sep by reflexivity.
    now rewrite (split_without_sep _ _ H).
Qed.

(** ** The reference implementations satisfy the laws *)

Lemma hex_digit_value (a : ascii) :
  hex_value (hex_digit (N_of_ascii a / 16)) = Some (N_of_ascii a / 16)%N /\
  hex_value (hex_digit (N_of_ascii a mod 16)) = Some (N_of_ascii a mod 16)%N /\
  ascii_of_N (16 * (N_of_ascii a / 16) + N_of_ascii a mod 16) = a.
Proof.
  destruct a as [[] [] [] [] [] [] [] []]; vm_compute; repeat split.
Qed.

Lemma hex_digit_plain (a : ascii) (c : ascii) :
  c = " "%char \/ c = "."%char ->
  Ascii.eqb (hex_digit (N_of_ascii a / 16)) c = false /\
  Ascii.eqb (hex_digit (N_of_ascii a mod 16)) c = false.
Proof.
  intros [-> | ->];
    destruct a as [[] [] [] [] [] [] [] []]; vm_compute; split; reflexivity.
Qed.

Lemma unhex_hex (s : string) : unhex (hex s) = Some s.
Proof.
  induction s as [|a s IH]; [reflexivity|].
  cbn [hex unhex].
  destruct (hex_digit_value a) as (-> & -> & E).
  now rewrite IH, E.
Qed.

Lemma hex_plain (s : string) (c : ascii) :
  c = " "%char \/ c = "."%char -> occurs c (hex s) = false.
Proof.
  intros Hc; induction s as [|a s IH]; [reflexivity|].
  cbn [hex occurs].
  destruct (hex_digit_plain a c Hc) as [-> ->].
  exact IH.
Qed.

Lemma unfield_field (v : option string) : unfield (field v) = Some v.
Proof.
  destruct v as [s|]; [|reflexivity].
  cbn [field unfield]. rewrite Ascii.eqb_refl, unhex_hex. reflexivity.
Qed.

Lemma field_plain (v : option string) (c : ascii) :
  c = " "%char \/ c = "."%char -> occurs c (field v) = false.
Proof.
  intros Hc; destruct v as [s|]; [|reflexivity].
  cbn [field occurs]. rewrite (hex_plain s c Hc).
  destruct Hc as [-> | ->]; reflexivity.
Qed.

Lemma int_of_str_str (z : Z) : int_of_str (str z) = Some z.
Proof.
  unfold int_of_str, str.
  rewrite NilZero.isi.
  - cbn. now rewrite DecimalZ.of_to.
  - destruct z; cbn; intros [= E]; now apply DecimalPos.Unsigned.to_uint_nonnil in E.
  - destruct z; cbn; intros [= E]; now apply DecimalPos.Unsigned.to_uint_nonnil in E.
Qed.

#[export] Instance reference_pwd_context_laws : CryptContextLaws Reference.pwd_context.
Proof.
  constructor. intros salt secret. cbn. unfold verify, hash.
  apply prefix_app.
Qed.

#[export] Instance reference_jwt_laws : JWTLaws Reference.jwt.
Proof.
  constructor.
  - intros c key now. cbn [jwt_decode jwt_encode Reference.jwt].
    unfold decode, encode. cbn [append].
    rewrite split_at_sep by (apply hex_plain; now right).
    rewrite split_at_sep by (apply field_plain; now right).
    rewrite split_without_sep by (apply field_plain; now right).
    rewrite unhex_hex, !unfield_field, String.eqb_refl. cbn [negb].
    destruct c as [sb [e|]]; cbn; [|reflexivity].
    now rewrite int_of_str_str.
  - intros c key. cbn [jwt_encode Reference.jwt]. unfold has_space, encode.
    rewrite !occurs_app. cbn [occurs].
    rewrite hex_plain, !field_plain by now left.
    reflexivity.
Qed.

#[export] Instance reference_jwt_rejects : JWTRejects Reference.jwt.
Proof.
  constructor.
  - intros token key now Hn. cbn [jwt_decode Reference.jwt]. unfold decode.
    destruct (split token ".") as [|k [|sg [|e [|x rest]]]]; try reflexivity.
    now elim Hn.
  - intros c key key' now Hk. cbn [jwt_decode jwt_encode Reference.jwt].
    unfold decode, encode. cbn [append].
    rewrite split_at_sep by (apply hex_plain; now right).
    rewrite split_at_sep by (apply field_plain; now right).
    rewrite split_without_sep by (apply field_plain; now right).
    rewrite unhex_hex, !unfield_field.
    destruct (String.eqb_spec key key') as [E|_]; [contradiction|reflexivity].
Qed.

(** ** Handlers, request by request *)

Section Handlers.

Context {P : CryptContext} {J : JWT}.

(** The authorization guard only reads. *)
Lemma get_current_user_reads (authorization : string) (now : datetime) (s : Session) :
  snd (get_current_user authorization now s) = s.
Proof.
  unfold get_current_user, bind, raise, ret, first_user_by_username.
  destruct (negb _); [reflexivity|].
  destruct (nth_error _ 1); [|reflexivity].
  destruct (jwt_decode _ _ _) as [e|payload]; [reflexivity|].
  destruct (sub payload) as [[|a name]|]; try reflexivity.
  simpl. destruct (find _ _); reflexivity.
Qed.

(** The user it yields is the first row carrying the token's subject. *)
Lemma get_current_user_found (authorization : string) (now : datetime)
    (s : Session) (u : User.t) :
  fst (get_current_user authorization now s) = Ok u ->
  user_by_username (pending s) (User.username u) = Some u.
Proof.
  unfold get_current_user, bind, raise, ret, first_user_by_username, user_by_username.
  destruct (negb _); [discriminate|].
  destruct (nth_error _ 1); [|discriminate].
  destruct (jwt_decode _ _ _) as [e|payload]; [discriminate|].
  destruct (sub payload) as [[|a name]|]; try discriminate.
  simpl. destruct (find _ _) as [r|] eqn:F; [|discriminate].
  simpl. intros [= <-].
  apply find_some in F as F'. destruct F' as [_ E].
  apply String.eqb_eq in E. now rewrite E.
Qed.

Lemma get_db_get_current_user (authorization : string) (now : datetime) (db : Database) :
  get_current_user authorization now {| stored := db; pending := db; params := [] |} =
  (fst (get_db (get_current_user authorization now) db),
   {| stored := db; pending := db; params := [] |}).
Proof.
  unfold get_db.
  pose proof (get_current_user_reads authorization now
                {| stored := db; pending := db; params := [] |}) as R.
  destruct (get_current_user _ _ _) as [r s]. simpl in *. now subst.
Qed.

Lemma submit_unfold (sb : SubmissionCreate) (authorization : string)
    (now : datetime) (db : Database) :
  get_db (submit sb authorization now) db =
  match fst (get_db (get_current_user authorization now) db) with
  | Raise e => (Raise e, db)
  | Ok u =>
      if fits_int64 (sub_challenge_id sb) then
        match challenge_by_id db (sub_challenge_id sb) with
        | None => (Raise (mkHTTPException 404 "Challenge not found"), db)
        | Some c =>
            if fits_int64 (User.points u + Challenge.points c) then
              (Ok ("Challenge completed! " ++ str (Challenge.points c)
                   ++ " points added."),
               after_submit db sb u c)
            else (Raise internal_server_error, db)
        end
      else (Raise internal_server_error, db)
  end.
Proof.
  unfold get_db at 1, submit, bind.
  rewrite get_db_get_current_user.
  destruct (fst (get_db _ db)) as [u|e]; [|reflexivity].
  unfold first_challenge_by_id, challenge_by_id. cbn [pending].
  destruct (fits_int64 (sub_challenge_id sb)); [|reflexivity].
  destruct (find _ (challenges db)) as [c|]; [|reflexivity].
  unfold assign_points, add_submission, commit. cbn [params pending stored app forallb].
  destruct (fits_int64 (User.points u + Challenge.points c)); reflexivity.
Qed.

Lemma create_challenge_unfold (ch : ChallengeCreate) (authorization : string)
    (now : datetime) (db : Database) :
  get_db (create_challenge ch authorization now) db =
  match fst (get_db (get_current_user authorization now) db) with
  | Raise e => (Raise e, db)
  | Ok u =>
      if String.eqb (User.role u) "admin"
      then if fits_int64 (new_points ch)
           then (Ok "Challenge created", after_create_challenge db ch)
           else (Raise internal_server_error, db)
      else (Raise (mkHTTPException 403 "Only admin can create challenges"), db)
  end.
Proof.
  unfold get_db at 1, create_challenge, bind.
  rewrite get_db_get_current_user.
  destruct (fst (get_db _ db)) as [u|e]; [|reflexivity].
  destruct (String.eqb (User.role u) "admin"); [|reflexivity].
  unfold add_challenge, commit. cbn [negb params pending stored app forallb].
  destruct (fits_int64 (new_points ch)); reflexivity.
Qed.

Lemma register_unfold (req : RegisterRequest) (salt : string) (db : Database) :
  get_db (register req salt) db =
  match user_by_username db (reg_username req) with
  | Some _ => (Raise (mkHTTPException 400 "Username taken"), db)
  | None =>
      if has_nul (reg_password req) then (Raise internal_server_error, db)
      else
        (Ok "User registered",
         after_add_user db (reg_username req)
                        (pwd_context_hash salt (reg_password req)) "student")
  end.
Proof.
  unfold get_db, register, bind, first_user_by_username, user_by_username,
    hash_password.
  cbn [pending]. destruct (find _ (users db)); [reflexivity|].
  destruct (has_nul (reg_password req)); reflexivity.
Qed.

Lemma seed_admin_unfold (salt : string) (db : Database) :
  get_db (seed_admin salt) db =
  match user_by_username db "admin" with
  | Some _ => (Ok tt, db)
  | None =>
      (Ok tt, after_add_user db "admin" (pwd_context_hash salt "admin123") "admin")
  end.
Proof.
  unfold get_db, seed_admin, bind, first_user_by_username, user_by_username.
  cbn [pending]. destruct (find _ (users db)); reflexivity.
Qed.

Lemma login_unfold (req : LoginRequest) (now : datetime) (db : Database) :
  get_db (login req now) db =
  match user_by_username db (login_username req) with
  | None => (Raise (mkHTTPException 400 "Invalid credentials"), db)
  | Some u =>
      if has_nul (login_password req) then (Raise internal_server_error, db)
      else if pwd_context_verify (login_password req) (User.hashed_password u)
      then (Ok {| access_token :=
                    create_access_token
                      {| sub := Some (login_username req); exp := None |}
                      (Some (timedelta_minutes ACCESS_TOKEN_EXPIRE_MINUTES)) now;
                  token_type := "bearer";
                  resp_role := User.role u;
                  resp_username := User.username u;
                  resp_points := User.points u |}, db)
      else (Raise (mkHTTPException 400 "Invalid credentials"), db)
  end.
Proof.
  unfold get_db, login, bind, first_user_by_username, user_by_username,
    verify_password.
  cbn [pending]. destruct (find _ (users db)) as [u|]; [|reflexivity].
  destruct (has_nul (login_password req)); [reflexivity|].
  cbn [ret]. destruct (pwd_context_verify _ _); reflexivity.
Qed.

End Handlers.

(** ** Lookups in an updated table *)

Lemma find_snoc {A} (f : A -> bool) (l : list A) (x : A) :
  find f (l ++ [x]) =
  match find f l with
  | Some y => Some y
  | None => if f x then Some x else None
  end.
Proof.
  induction l as [|a l IH]; simpl; [reflexivity|].
  destruct (f a); [reflexivity | exact IH].
Qed.

Lemma user_by_username_set_points (rows : list User.t) (name : string)
    (u : User.t) (v : Z) :
  find (fun r => String.eqb (User.username r) name) rows = Some u ->
  find (fun r => String.eqb (User.username r) name)
       (set_points (User.id u) v rows) = Some (User.with_points u v).
Proof.
  induction rows as [|r rows IH]; simpl; [discriminate|].
  destruct (String.eqb (User.username r) name) eqn:E.
  - intros [= ->]. rewrite Z.eqb_refl. simpl. now rewrite E.
  - intros F. destruct (User.id r =? User.id u); simpl; rewrite E; auto.
Qed.

Lemma set_points_ids (uid v : Z) (rows : list User.t) :
  map User.id (set_points uid v rows) = map User.id rows.
Proof.
  unfold set_points. rewrite map_map. apply map_ext.
  intros r. now destruct (User.id r =? uid).
Qed.

Lemma set_points_usernames (uid v : Z) (rows : list User.t) :
  map User.username (set_points uid v rows) = map User.username rows.
Proof.
  unfold set_points. rewrite map_map. apply map_ext.
  intros r. now destruct (User.id r =? uid).
Qed.

Section Authentication.

Context {J : JWT}.

(** What the guard yields depends on the header and the clock for the
    subject, and on the users table for the row. *)
Lemma get_current_user_subject (authorization : string) (now : datetime) :
  exists r : Result string,
    forall db,
      fst (get_db (get_current_user authorization now) db) =
      match r with
      | Raise e => Raise e
      | Ok name =>
          match user_by_username db name with
          | Some u => Ok u
          | None => Raise (mkHTTPException 404 "User not found")
          end
      end.
Proof.
  unfold get_db, get_current_user, bind, raise, ret, first_user_by_username,
    user_by_username.
  destruct (negb _); [now eexists (Raise _)|].
  destruct (nth_error _ 1); [|now eexists (Raise _)].
  destruct (jwt_decode _ _ _) as [e|payload]; [now eexists (Raise _)|].
  destruct (sub payload) as [[|a name]|]; try now eexists (Raise _).
  exists (Ok (String a name)). intros db. cbn [pending].
  destruct (find _ (users db)); reflexivity.
Qed.

Lemma authenticated_found (authorization : string) (now : datetime)
    (db : Database) (u : User.t) :
  fst (get_db (get_current_user authorization now) db) = Ok u ->
  user_by_username db (User.username u) = Some u.
Proof.
  intros H. unfold get_db in H.
  pose proof (get_current_user_found authorization now
                {| stored := db; pending := db; params := [] |} u) as F.
  destruct (get_current_user _ _ _) as [r s]. apply F. exact H.
Qed.

(** The same header still authenticates after the caller's points moved. *)
Lemma authenticated_after_submit (authorization : string) (now : datetime)
    (db : Database) (sb : SubmissionCreate) (u w : User.t) (c : Challenge.t) :
  fst (get_db (get_current_user authorization now) db) = Ok u ->
  user_by_username db (User.username u) = Some w ->
  fst (get_db (get_current_user authorization now) (after_submit db sb w c)) =
  Ok (User.with_points u (User.points w + Challenge.points c)).
Proof.
  intros H Hw.
  pose proof (authenticated_found _ _ _ _ H) as Hu.
  rewrite Hu in Hw. injection Hw as <-.
  destruct (get_current_user_subject authorization now) as [r Hr].
  rewrite Hr in H. rewrite Hr.
  destruct r as [name|e]; [|discriminate].
  destruct (user_by_username db name) as [u'|] eqn:F; [|discriminate].
  injection H as ->.
  unfold user_by_username in *. cbn [after_submit users].
  now rewrite (user_by_username_set_points _ _ _ _ F).
Qed.

End Authentication.

(** ** Submissions *)

Section Submit.

Context {J : JWT}.

(** C1.  Let the header authenticate user [u] and the request name an
    existing challenge [c].  Every successful Submit then leaves the row of
    [u] holding its prior points plus the points of [c], with exactly one
    submission row appended, which references [u] and [c] with status
    [completed]; and Submit does succeed whenever the challenge key and the
    new total fit the signed 64-bit columns. *)
Theorem submit_awards_points (sb : SubmissionCreate) (authorization : string)
    (now : datetime) (db : Database) (u : User.t) (c : Challenge.t) :
  fst (get_db (get_current_user authorization now) db) = Ok u ->
  challenge_by_id db (sub_challenge_id sb) = Some c ->
  (forall msg db',
     get_db (submit sb authorization now) db = (Ok msg, db') ->
     exists row,
       user_by_username db (User.username u) = Some u /\
       user_by_username db' (User.username u) =
         Some (User.with_points u (User.points u + Challenge.points c)) /\
       map User.id (users db') = map User.id (users db) /\
       challenges db' = challenges db /\
       submissions db' = (submissions db ++ [row])%list /\
       Submission.user_id row = User.id u /\
       Submission.challenge_id row = Challenge.id c /\
       Submission.status row = "completed" /\
       Submission.proof_text row = sub_proof_text sb) /\
  (fits_int64 (sub_challenge_id sb) = true ->
   fits_int64 (User.points u + Challenge.points c) = true ->
   exists msg db', get_db (submit sb authorization now) db = (Ok msg, db')).
Proof.
  intros Hu Hc.
  pose proof (authenticated_found _ _ _ _ Hu) as Fu.
  rewrite submit_unfold, Hu, Hc. split.
  - intros msg db'.
    destruct (fits_int64 (sub_challenge_id sb)); [|discriminate].
    destruct (fits_int64 (User.points u + Challenge.points c)); [|discriminate].
    intros [= _ <-]. exists (submission_row db sb u).
    repeat split; try reflexivity.
    + exact Fu.
    + apply user_by_username_set_points. exact Fu.
    + apply set_points_ids.
    + apply find_some in Hc as [_ E]. apply Z.eqb_eq in E. now rewrite E.
  - intros -> ->. now eexists _, _.
Qed.

(** C9.  A Submit that fails leaves the database as it was.  For an
    authenticated caller the failure is either 404 [Challenge not found],
    the challenge being absent, or a 500 because the challenge key or the
    new points total does not fit the signed 64-bit column; the latter is
    raised by the commit, after the points were assigned in the session,
    and still nothing is stored. *)
Theorem submit_failure_changes_nothing (sb : SubmissionCreate)
    (authorization : string) (now : datetime) (db db' : Database)
    (e : HTTPException) :
  get_db (submit sb authorization now) db = (Raise e, db') ->
  db' = db /\
  (forall u, fst (get_db (get_current_user authorization now) db) = Ok u ->
     (fits_int64 (sub_challenge_id sb) = true /\
      challenge_by_id db (sub_challenge_id sb) = None /\
      e = mkHTTPException 404 "Challenge not found") \/
     (e = internal_server_error /\
      (fits_int64 (sub_challenge_id sb) = false \/
       exists c,
         challenge_by_id db (sub_challenge_id sb) = Some c /\
         fits_int64 (User.points u + Challenge.points c) = false))).
Proof.
  rewrite submit_unfold.
  destruct (fst (get_db (get_current_user authorization now) db)) as [u|e'].
  - destruct (fits_int64 (sub_challenge_id sb)) eqn:Fk.
    + destruct (challenge_by_id db (sub_challenge_id sb)) as [c|] eqn:Fc.
      * destruct (fits_int64 (User.points u + Challenge.points c)) eqn:Fp;
          [discriminate|].
        intros [= <- <-]. split; [reflexivity|]. intros u' [= <-].
        right. split; [reflexivity|]. right. now exists c.
      * intros [= <- <-]. split; [reflexivity|]. intros u' _. left. now repeat split.
    + intros [= <- <-]. split; [reflexivity|]. intros u' _.
      right. split; [reflexivity|]. now left.
  - intros [= <- <-]. split; [reflexivity|]. intros u' [=].
Qed.

(** The failure at commit, seen inside the session: the points were
    assigned and the row added in [pending], and [stored] is untouched. *)
Lemma submit_overflow_in_session (sb : SubmissionCreate) (authorization : string)
    (now : datetime) (db : Database) (u : User.t) (c : Challenge.t) :
  fst (get_db (get_current_user authorization now) db) = Ok u ->
  fits_int64 (sub_challenge_id sb) = true ->
  challenge_by_id db (sub_challenge_id sb) = Some c ->
  fits_int64 (User.points u + Challenge.points c) = false ->
  submit sb authorization now {| stored := db; pending := db; params := [] |} =
  (Raise internal_server_error,
   {| stored := db;
      pending := after_submit db sb u c;
      params := [User.points u + Challenge.points c] |}).
Proof.
  intros Hu Fk Fc Fp. unfold submit, bind.
  rewrite get_db_get_current_user, Hu.
  unfold first_challenge_by_id, challenge_by_id in *. cbn [pending].
  rewrite Fk, Fc.
  unfold assign_points, add_submission, commit.
  cbn [params pending stored app forallb]. now rewrite Fp.
Qed.

End Submit.

(** ** Repeated submissions *)

Section Resubmit.

Context {P : CryptContext} {J : JWT}.

Lemma with_points_twice (u : User.t) (x y : Z) :
  User.with_points (User.with_points u x) y = User.with_points u y.
Proof. reflexivity. Qed.

Lemma step_submit (sb : SubmissionCreate) (authorization : string)
    (now : datetime) (db : Database) (u : User.t) (c : Challenge.t) :
  fst (get_db (get_current_user authorization now) db) = Ok u ->
  challenge_by_id db (sub_challenge_id sb) = Some c ->
  fits_int64 (sub_challenge_id sb) = true ->
  fits_int64 (User.points u + Challenge.points c) = true ->
  step (PostSubmissions sb authorization now) db = after_submit db sb u c.
Proof.
  intros Hu Hc Fk Fp. unfold step. now rewrite submit_unfold, Hu, Fk, Hc, Fp.
Qed.

Lemma run_resubmissions (sb : SubmissionCreate) (c : Challenge.t)
    (reqs : list (string * datetime)) :
  forall (db : Database) (u : User.t),
    (forall r, In r reqs ->
       fst (get_db (get_current_user (fst r) (snd r)) db) = Ok u) ->
    challenge_by_id db (sub_challenge_id sb) = Some c ->
    fits_int64 (sub_challenge_id sb) = true ->
    (forall k, (1 <= k <= List.length reqs)%nat ->
       fits_int64 (User.points u + Z.of_nat k * Challenge.points c) = true) ->
    user_by_username db (User.username u) = Some u ->
    let db' := run (resubmissions sb reqs) db in
    user_by_username db' (User.username u) =
      Some (User.with_points u
              (User.points u + Z.of_nat (List.length reqs) * Challenge.points c)) /\
    challenges db' = challenges db /\
    exists rows,
      submissions db' = (submissions db ++ rows)%list /\
      List.length rows = List.length reqs /\
      Forall (completed_by (User.id u) (sub_challenge_id sb)) rows.
Proof.
  induction reqs as [|[a t] reqs IH]; intros db u Hall Hc Fk Hfit Hu.
  - cbn. repeat split.
    + rewrite Hu. f_equal. destruct u; unfold User.with_points; cbn. f_equal. lia.
    + exists []. now rewrite app_nil_r.
  - assert (Hat : fst (get_db (get_current_user a t) db) = Ok u)
      by (apply (Hall (a, t)); now left).
    assert (Fp : fits_int64 (User.points u + Challenge.points c) = true).
    { specialize (Hfit 1%nat). cbn [List.length] in Hfit.
      replace (User.points u + Challenge.points c)
        with (User.points u + Z.of_nat 1 * Challenge.points c) by lia.
      apply Hfit. lia. }
    cbn [resubmissions map run fold_left fst snd].
    rewrite (step_submit sb a t db u c Hat Hc Fk Fp).
    set (u1 := User.with_points u (User.points u + Challenge.points c)).
    destruct (IH (after_submit db sb u c) u1) as (Hp & Hch & rows & Hs & Hl & Hf).
    + intros r Hr. apply authenticated_after_submit; [|exact Hu].
      apply Hall. now right.
    + exact Hc.
    + exact Fk.
    + intros k Hk. unfold u1. cbn [User.points User.with_points].
      replace (User.points u + Challenge.points c + Z.of_nat k * Challenge.points c)
        with (User.points u + Z.of_nat (S k) * Challenge.points c) by lia.
      apply Hfit. cbn [List.length]. lia.
    + apply user_by_username_set_points. exact Hu.
    + fold (resubmissions sb reqs). fold (run (resubmissions sb reqs)).
      repeat split.
      * change (User.username u1) with (User.username u) in Hp.
        unfold run in Hp |- *. rewrite Hp. unfold u1.
        rewrite with_points_twice. f_equal. f_equal. cbn [User.points User.with_points].
        cbn [List.length]. lia.
      * exact Hch.
      * exists (submission_row db sb u :: rows). repeat split.
        -- unfold run in Hs |- *. rewrite Hs. cbn [after_submit submissions].
           now rewrite <- app_assoc.
        -- cbn [List.length]. now rewrite Hl.
        -- constructor; [now repeat split | exact Hf].
Qed.

(** C10, as the code has it.  A user who already has a submission for a
    challenge can submit it again: while the new total fits the signed
    64-bit points column the request succeeds, appends another row for the
    same pair and adds the challenge's points again, and any number of
    further submissions accumulate in the same way.  Once the total would
    leave the column's range the request is answered with a 500 and nothing
    is stored. *)
Theorem resubmit_accumulates (sb : SubmissionCreate) (authorization : string)
    (now : datetime) (db : Database) (u : User.t) (c : Challenge.t) :
  fst (get_db (get_current_user authorization now) db) = Ok u ->
  challenge_by_id db (sub_challenge_id sb) = Some c ->
  fits_int64 (sub_challenge_id sb) = true ->
  has_submission db (User.id u) (sub_challenge_id sb) = true ->
  (fits_int64 (User.points u + Challenge.points c) = true ->
   exists msg row,
     get_db (submit sb authorization now) db =
       (Ok msg, {| users := set_points (User.id u)
                              (User.points u + Challenge.points c) (users db);
                   challenges := challenges db;
                   submissions := submissions db ++ [row] |}) /\
     completed_by (User.id u) (sub_challenge_id sb) row) /\
  (forall reqs,
     (forall r, In r reqs ->
        fst (get_db (get_current_user (fst r) (snd r)) db) = Ok u) ->
     (forall k, (1 <= k <= List.length reqs)%nat ->
        fits_int64 (User.points u + Z.of_nat k * Challenge.points c) = true) ->
     let db' := run (resubmissions sb reqs) db in
     user_by_username db' (User.username u) =
       Some (User.with_points u
               (User.points u + Z.of_nat (List.length reqs) * Challenge.points c)) /\
     exists rows,
       submissions db' = (submissions db ++ rows)%list /\
       List.length rows = List.length reqs /\
       Forall (completed_by (User.id u) (sub_challenge_id sb)) rows) /\
  (fits_int64 (User.points u + Challenge.points c) = false ->
   get_db (submit sb authorization now) db = (Raise internal_server_error, db)).
Proof.
  intros Hu Hc Fk _.
  pose proof (authenticated_found _ _ _ _ Hu) as Fu.
  split; [|split].
  - intros Fp. eexists _, (submission_row db sb u).
    rewrite submit_unfold, Hu, Fk, Hc, Fp. split; [reflexivity | now repeat split].
  - intros reqs Hall Hfit.
    destruct (run_resubmissions sb c reqs db u Hall Hc Fk Hfit Fu) as (Hp & _ & Hrows).
    split; assumption.
  - intros Fp. now rewrite submit_unfold, Hu, Fk, Hc, Fp.
Qed.

End Resubmit.

(** ** Registration and login *)

Section Accounts.

Context {P : CryptContext} {J : JWT}.



Context {PL : CryptContextLaws P} {JL : JWTLaws J}.

Lemma timegm_add_minutes (now : datetime) (m : Z) :
  timegm (now + timedelta_minutes m) = timegm now + m * 60.
Proof.
  unfold timegm, timedelta_minutes.
  replace (now + m * 60000000) with (now + (m * 60) * 1000000) by lia.
  now rewrite Z.div_add by lia.
Qed.


Lemma create_access_token_decodes (data : Claims) (delta : option timedelta)
    (now : datetime) :
  let d := match delta with
           | Some d => if d =? 0 then timedelta_minutes 15 else d
           | None => timedelta_minutes 15
           end in
  0 <= d ->
  jwt_decode (create_access_token data delta now) SECRET_KEY (timegm now) =
  inr {| sub := sub data; exp := Some (timegm (now + d)) |}.
Proof.
  intros d Hd. unfold create_access_token. fold d.
  rewrite decode_encode. cbn [exp].
  destruct (Z.ltb_spec (timegm (now + d)) (timegm now)) as [L|_]; [|reflexivity].
  exfalso. unfold timegm in L.
  assert (now / 1000000 <= (now + d) / 1000000) by (apply Z.div_le_mono; lia).
  lia.
Qed.

(** C7, as the code has it.  A token issued by login expires 60 minutes
    (3600 seconds) after the clock reading at issuance; called without a
    lifetime, or with a zero one, the issuing function itself falls back
    to 15 minutes (900 seconds). *)
Theorem token_lifetimes (db db' : Database) (req : LoginRequest)
    (now : datetime) (resp : LoginResponse) (data : Claims) :
  get_db (login req now) db = (Ok resp, db') ->
  jwt_decode (access_token resp) SECRET_KEY (timegm now) =
    inr {| sub := Some (login_username req); exp := Some (timegm now + 3600) |} /\
  jwt_decode (create_access_token data None now) SECRET_KEY (timegm now) =
    inr {| sub := sub data; exp := Some (timegm now + 900) |} /\
  jwt_decode (create_access_token data (Some 0) now) SECRET_KEY (timegm now) =
    inr {| sub := sub data; exp := Some (timegm now + 900) |}.
Proof.
  rewrite login_unfold.
  destruct (user_by_username db (login_username req)) as [u|]; [|discriminate].
  destruct (has_nul (login_password req)); [discriminate|].
  destruct (pwd_context_verify _ _); [|discriminate].
  intros H.
  assert (access_token resp =
          create_access_token {| sub := Some (login_username req); exp := None |}
            (Some (timedelta_minutes ACCESS_TOKEN_EXPIRE_MINUTES)) now) as ->
    by (injection H as <- _; reflexivity).
  rewrite !create_access_token_decodes by (cbn; lia).
  cbv zeta. change (timedelta_minutes ACCESS_TOKEN_EXPIRE_MINUTES =? 0) with false.
  change (0 =? 0) with true. cbv iota.
  rewrite !timegm_add_minutes. now repeat split.
Qed.

End Accounts.

(** ** Token verification *)

Section Tokens.

Context {J : JWT} {JL : JWTLaws J} {JR : JWTRejects J}.



End Tokens.

(** ** Leaderboard *)

Lemma StronglySorted_map {A B} (f : A -> B) (R : A -> A -> Prop)
    (S : B -> B -> Prop) (l : list A) :
  (forall x y, R x y -> S (f x) (f y)) ->
  StronglySorted R l -> StronglySorted S (map f l).
Proof.
  intros HRS H. induction H as [|x l Hl IH Hx]; cbn; constructor.
  - exact IH.
  - apply Forall_map. revert Hx. apply Forall_impl. intros y. apply HRS.
Qed.

(** C6.  For every database the leaderboard is returned; its entries
    are ordered by their points from high to low; and, read as (username,
    points, role) triples, they are a rearrangement of the triples of the
    users table: every stored user appears with its own name, points and
    role, exactly as often as it is stored, and nothing else appears. *)
Theorem leaderboard_sorted_complete (db : Database) :
  exists board,
    get_db leaderboard db = (Ok board, db) /\
    StronglySorted (fun a b => lb_points b <= lb_points a) board /\
    Permutation
      (map (fun u => (User.username u, User.points u, User.role u)) (users db))
      (map (fun e => (lb_username e, lb_points e, lb_role e)) board) /\
    List.length board = List.length (users db).
Proof.
  exists (map leaderboard_entry (order_by_points_desc (users db))).
  split; [reflexivity|].
  assert (Hperm : Permutation (users db) (order_by_points_desc (users db)))
    by apply UserSort.Permuted_sort.
  split; [|split].
  - apply StronglySorted_map with (R := fun u v => is_true (PointsDesc.leb u v)).
    + intros u v H. unfold leaderboard_entry; cbn.
      unfold PointsDesc.leb in H. now apply Z.leb_le.
    + apply UserSort.StronglySorted_sort.
      intros u v w Huv Hvw. unfold is_true, PointsDesc.leb in *.
      apply Z.leb_le in Huv, Hvw. apply Z.leb_le. lia.
  - rewrite map_map. cbn [leaderboard_entry lb_username lb_points lb_role].
    now apply Permutation_map.
  - rewrite length_map. symmetry. now apply Permutation_length.
Qed.

(** ** What one event does to the database *)

Section Steps.

Context {P : CryptContext} {J : JWT}.

Lemma step_effect (ev : Event) (db : Database) : effect db (step ev db).
Proof.
  destruct ev as [salt|req salt|req now| |ch auth now|sb auth now| ]; unfold step.
  - rewrite seed_admin_unfold.
    destruct (user_by_username db "admin") eqn:F; cbn [snd];
      [constructor | now constructor].
  - rewrite register_unfold.
    destruct (user_by_username db (reg_username req)) eqn:F; [constructor|].
    destruct (has_nul (reg_password req)); cbn [snd];
      [constructor | now constructor].
  - rewrite login_unfold.
    destruct (user_by_username db (login_username req)); [|constructor].
    destruct (has_nul (login_password req)); [constructor|].
    destruct (pwd_context_verify _ _); constructor.
  - constructor.
  - rewrite create_challenge_unfold.
    destruct (fst (get_db _ db)) as [u|e]; [|constructor].
    destruct (String.eqb _ _); [|constructor].
    destruct (fits_int64 (new_points ch)); constructor.
  - rewrite submit_unfold.
    destruct (fst (get_db _ db)) as [u|e] eqn:Hu; [|constructor].
    destruct (fits_int64 (sub_challenge_id sb)); [|constructor].
    destruct (challenge_by_id db (sub_challenge_id sb)) as [c|] eqn:Hc;
      [|constructor].
    destruct (fits_int64 (User.points u + Challenge.points c)); [|constructor].
    cbn [snd]. constructor; [|exact Hc].
    now apply authenticated_found in Hu.
  - constructor.
Qed.

End Steps.

(** ** Consistency of reachable databases *)

Lemma next_id_above (ids : list Z) (x : Z) : In x ids -> x < next_id ids.
Proof.
  unfold next_id. induction ids as [|y ids IH]; cbn; [contradiction|].
  intros [->|H]; [lia|]. specialize (IH H). lia.
Qed.

Lemma next_id_fresh (ids : list Z) : ~ In (next_id ids) ids.
Proof. intros H. apply next_id_above in H. lia. Qed.

Lemma sumZ_app (l1 l2 : list Z) : sumZ (l1 ++ l2) = sumZ l1 + sumZ l2.
Proof. unfold sumZ. induction l1; cbn; lia. Qed.

Lemma user_by_username_none (db : Database) (name : string) :
  user_by_username db name = None -> ~ In name (map User.username (users db)).
Proof.
  unfold user_by_username. intros F H.
  apply in_map_iff in H as (u & E & Hu).
  apply (find_none _ _ F) in Hu. cbn in Hu.
  rewrite E, String.eqb_refl in Hu. discriminate.
Qed.

Lemma user_by_username_in (db : Database) (name : string) (u : User.t) :
  user_by_username db name = Some u -> In u (users db) /\ User.username u = name.
Proof.
  unfold user_by_username. intros F. apply find_some in F as [H E].
  split; [exact H | now apply String.eqb_eq].
Qed.

Lemma challenge_by_id_in (db : Database) (cid : Z) (c : Challenge.t) :
  challenge_by_id db cid = Some c -> In c (challenges db) /\ Challenge.id c = cid.
Proof.
  unfold challenge_by_id. intros F. apply find_some in F as [H E].
  split; [exact H | now apply Z.eqb_eq].
Qed.

Lemma user_by_id_unique (db : Database) (u : User.t) :
  NoDup (map User.id (users db)) -> In u (users db) ->
  user_by_id db (User.id u) = Some u.
Proof.
  unfold user_by_id. induction (users db) as [|r rows IH]; cbn; [contradiction|].
  intros N [->|H].
  - now rewrite Z.eqb_refl.
  - inversion N as [|? ? Hr N']; subst.
    destruct (Z.eqb_spec (User.id r) (User.id u)) as [E|_]; [|auto].
    exfalso. apply Hr. rewrite E. now apply in_map.
Qed.

Lemma user_by_id_set_points (rows : list User.t) (x : Z) (r : User.t)
    (v uid : Z) :
  find (fun r => User.id r =? x) rows = Some r ->
  find (fun r => User.id r =? x) (set_points uid v rows) =
  Some (if User.id r =? uid then User.with_points r v else r).
Proof.
  induction rows as [|a rows IH]; [discriminate|].
  change (set_points uid v (a :: rows))
    with ((if User.id a =? uid then User.with_points a v else a)
          :: set_points uid v rows).
  cbn [find].
  replace (User.id (if User.id a =? uid then User.with_points a v else a))
    with (User.id a) by now destruct (User.id a =? uid).
  destruct (User.id a =? x).
  - now intros [= ->].
  - exact IH.
Qed.

(** A stored challenge keeps answering for its key when a row is added. *)
Lemma reward_after_create_challenge (db : Database) (ch : ChallengeCreate)
    (s : Submission.t) :
  In (Submission.challenge_id s) (map Challenge.id (challenges db)) ->
  reward (after_create_challenge db ch) s = reward db s.
Proof.
  intros H. unfold reward, challenge_by_id, after_create_challenge.
  cbn [challenges]. rewrite find_snoc.
  destruct (find _ (challenges db)) eqn:F; [reflexivity|].
  exfalso. apply in_map_iff in H as (c & E & Hc).
  apply (find_none _ _ F) in Hc. cbn in Hc. rewrite E, Z.eqb_refl in Hc.
  discriminate.
Qed.

Lemma earned_no_submission (db : Database) (uid : Z) :
  ~ In uid (map Submission.user_id (submissions db)) -> earned db uid = 0.
Proof.
  unfold earned, submissions_of. intros H.
  induction (submissions db) as [|s l IH]; [reflexivity|].
  cbn. destruct (Z.eqb_spec (Submission.user_id s) uid) as [E|_].
  - exfalso. apply H. now left.
  - apply IH. intros H'. apply H. now right.
Qed.

Lemma earned_after_submit (db : Database) (sb : SubmissionCreate) (u : User.t)
    (c : Challenge.t) (uid : Z) :
  challenge_by_id db (sub_challenge_id sb) = Some c ->
  earned (after_submit db sb u c) uid =
  earned db uid + (if User.id u =? uid then Challenge.points c else 0).
Proof.
  intros Hc. unfold earned, submissions_of, after_submit. cbn [submissions].
  rewrite filter_app, map_app, sumZ_app. f_equal.
  cbn [filter submission_row Submission.user_id].
  destruct (User.id u =? uid); [|reflexivity].
  transitivity (reward db (submission_row db sb u) + 0); [reflexivity|].
  unfold reward.
  change (Submission.challenge_id (submission_row db sb u)) with (sub_challenge_id sb).
  rewrite Hc. lia.
Qed.

Lemma effect_consistent (db db' : Database) :
  effect db db' -> consistent db -> consistent db'.
Proof.
  intros E [Nid Nname Su Sc Pe].
  destruct E as [|name hashed role F|ch|sb u c Fu Fc].
  - now constructor.
  - constructor; cbn [after_add_user users challenges submissions].
    + rewrite map_app. cbn.
      apply Permutation_NoDup with (l := next_id (map User.id (users db))
                                                 :: map User.id (users db)).
      * apply Permutation_cons_append.
      * constructor; [apply next_id_fresh | exact Nid].
    + rewrite map_app. cbn.
      apply Permutation_NoDup with (l := name :: map User.username (users db)).
      * apply Permutation_cons_append.
      * constructor; [now apply user_by_username_none | exact Nname].
    + intros s Hs. rewrite map_app. apply in_or_app. left. now apply Su.
    + exact Sc.
    + intros r Hr. apply in_app_or in Hr as [Hr|[<-|[]]].
      * now apply Pe.
      * cbn [User.points User.id]. symmetry.
        apply (earned_no_submission db). intros H.
        apply in_map_iff in H as (s & Es & Hs). apply Su in Hs.
        rewrite Es in Hs. now apply next_id_fresh in Hs.
  - constructor; cbn [after_create_challenge users challenges submissions];
      try assumption.
    + intros s Hs. rewrite map_app. apply in_or_app. left. now apply Sc.
    + intros r Hr. rewrite (Pe r Hr). unfold earned. f_equal.
      apply map_ext_in. intros s Hs. symmetry.
      apply reward_after_create_challenge. apply Sc.
      unfold submissions_of in Hs. now apply filter_In in Hs as [Hs _].
  - apply user_by_username_in in Fu as Hu. destruct Hu as [Hu _].
    apply challenge_by_id_in in Fc as Hc. destruct Hc as [Hc Ec].
    constructor; cbn [after_submit users challenges submissions].
    + now rewrite set_points_ids.
    + now rewrite set_points_usernames.
    + rewrite set_points_ids. intros s Hs.
      apply in_app_or in Hs as [Hs|[<-|[]]]; [now apply Su|].
      cbn. now apply in_map.
    + intros s Hs.
      apply in_app_or in Hs as [Hs|[<-|[]]]; [now apply Sc|].
      cbn. rewrite <- Ec. now apply in_map.
    + intros r Hr. unfold set_points in Hr.
      apply in_map_iff in Hr as (r0 & <- & Hr0).
      rewrite (earned_after_submit db sb u c _ Fc).
      destruct (Z.eqb_spec (User.id r0) (User.id u)) as [E|NE].
      * cbn [User.with_points User.id User.points].
        rewrite E, Z.eqb_refl, (Pe u Hu). reflexivity.
      * destruct (Z.eqb_spec (User.id u) (User.id r0)) as [E'|_];
          [congruence|]. rewrite (Pe r0 Hr0). lia.
Qed.

Lemma empty_consistent : consistent empty_database.
Proof.
  constructor; cbn; try constructor; contradiction.
Qed.

Section Reachable.

Context {P : CryptContext} {J : JWT}.

Lemma reachable_consistent (db : Database) : reachable db -> consistent db.
Proof.
  induction 1 as [salt|ev db _ IH].
  - apply (effect_consistent empty_database); [apply step_effect|].
    apply empty_consistent.
  - apply (effect_consistent db); [apply step_effect | exact IH].
Qed.

(** C2, as the code has it.  In every reachable database each user's
    points equal the sum, over that user's submission rows, of the points of
    the challenge each row references: a challenge submitted several times
    counts once per row. *)
Theorem points_sum_over_submissions (db : Database) (u : User.t) :
  reachable db -> In u (users db) ->
  User.points u = earned db (User.id u).
Proof.
  intros R. apply (points_are_earned db (reachable_consistent db R)).
Qed.


End Reachable.

(** ** The scenario, evaluated *)

Section ReachableRuns.

Context {P : CryptContext} {J : JWT}.

Lemma reachable_run (evs : list Event) :
  forall db, reachable db -> reachable (run evs db).
Proof.
  induction evs as [|ev evs IH]; intros db R; [exact R|].
  apply (IH (step ev db)). now apply reachable_step.
Qed.

End ReachableRuns.

Lemma db1_reachable : reachable db1.
Proof. apply reachable_run. apply reachable_start. Qed.

Lemma db2_reachable : reachable db2.
Proof. apply reachable_step. exact db1_reachable. Qed.


(** The theorems above, applied to the scenario: each premise holds there
    by evaluation. *)

Lemma db4_reachable : reachable db4.
Proof. apply reachable_step. exact db1_reachable. Qed.

Lemma db5_reachable : reachable db5.
Proof. apply reachable_step. exact db4_reachable. Qed.

Lemma submit_awards_points_witness :
  fst (get_db (get_current_user alice_auth t0) db1) = Ok (alice_row 0) /\
  challenge_by_id db1 (sub_challenge_id submit_recycle) = Some recycle_row /\
  exists msg db',
    get_db (submit submit_recycle alice_auth t0) db1 = (Ok msg, db') /\
    user_by_username db' "alice" = Some (alice_row 10) /\
    List.length (submissions db') = S (List.length (submissions db1)).
Proof.
  assert (Hu : fst (get_db (get_current_user alice_auth t0) db1) = Ok (alice_row 0))
    by (vm_compute; reflexivity).
  assert (Hc : challenge_by_id db1 (sub_challenge_id submit_recycle) = Some recycle_row)
    by (vm_compute; reflexivity).
  split; [exact Hu|]. split; [exact Hc|].
  destruct (submit_awards_points submit_recycle alice_auth t0 db1
              (alice_row 0) recycle_row Hu Hc) as [Heff Hex].
  destruct Hex as (msg & db' & E); [reflexivity | reflexivity |].
  destruct (Heff msg db' E) as (row & _ & Hp & _ & _ & Hs & _).
  exists msg, db'. split; [exact E|]. split; [exact Hp|].
  rewrite Hs, length_app. cbn. apply Nat.add_1_r.
Defined.

Lemma submit_failure_changes_nothing_witness :
  get_db (submit submit_missing alice_auth t0) db1 =
    (Raise (mkHTTPException 404 "Challenge not found"), db1) /\
  get_db (submit submit_jackpot alice_auth t0) db5 =
    (Raise internal_server_error, db5) /\
  db1 = db1 /\ db5 = db5.
Proof.
  assert (H : get_db (submit submit_missing alice_auth t0) db1 =
              (Raise (mkHTTPException 404 "Challenge not found"), db1))
    by (vm_compute; reflexivity).
  assert (H' : get_db (submit submit_jackpot alice_auth t0) db5 =
               (Raise internal_server_error, db5))
    by (vm_compute; reflexivity).
  split; [exact H|]. split; [exact H'|]. split.
  - exact (proj1 (submit_failure_changes_nothing _ _ _ _ _ _ H)).
  - exact (proj1 (submit_failure_changes_nothing _ _ _ _ _ _ H')).
Defined.

Lemma resubmit_accumulates_witness :
  fst (get_db (get_current_user alice_auth t0) db2) = Ok (alice_row 10) /\
  challenge_by_id db2 (sub_challenge_id submit_recycle) = Some recycle_row /\
  fits_int64 (sub_challenge_id submit_recycle) = true /\
  has_submission db2 (User.id (alice_row 10)) (sub_challenge_id submit_recycle) = true /\
  user_by_username
    (run (resubmissions submit_recycle [(alice_auth, t0); (alice_auth, t0 + 1)]) db2)
    "alice" = Some (alice_row 30).
Proof.
  assert (Hu : fst (get_db (get_current_user alice_auth t0) db2) = Ok (alice_row 10))
    by (vm_compute; reflexivity).
  assert (Hc : challenge_by_id db2 (sub_challenge_id submit_recycle) = Some recycle_row)
    by (vm_compute; reflexivity).
  assert (Hk : fits_int64 (sub_challenge_id submit_recycle) = true) by reflexivity.
  assert (Hs : has_submission db2 (User.id (alice_row 10))
                 (sub_challenge_id submit_recycle) = true)
    by (vm_compute; reflexivity).
  repeat (split; [assumption|]).
  destruct (resubmit_accumulates submit_recycle alice_auth t0 db2
              (alice_row 10) recycle_row Hu Hc Hk Hs) as (_ & Hall & _).
  destruct (Hall [(alice_auth, t0); (alice_auth, t0 + 1)]) as [Hp _].
  - intros r [<-|[<-|[]]]; vm_compute; reflexivity.
  - intros k Hk'. cbn [List.length] in Hk'.
    assert (Ek : k = 1%nat \/ k = 2%nat) by lia.
    destruct Ek as [-> | ->]; reflexivity.
  - exact Hp.
Defined.



Lemma token_lifetimes_witness :
  exists resp,
    get_db (login alice_login t0) db1 = (Ok resp, db1) /\
    jwt_decode (access_token resp) SECRET_KEY (timegm t0) =
      inr {| sub := Some "alice"; exp := Some (1700000000 + 3600) |}.
Proof.
  eexists. split; [vm_compute; reflexivity|].
  refine (proj1 (token_lifetimes db1 db1 alice_login t0 _
                   {| sub := None; exp := None |} _)).
  vm_compute; reflexivity.
Defined.


Lemma points_sum_over_submissions_witness :
  reachable db2 /\ In (alice_row 10) (users db2) /\
  User.points (alice_row 10) = earned db2 2.
Proof.
  assert (H : In (alice_row 10) (users db2)) by (vm_compute; right; left; reflexivity).
  split; [exact db2_reachable|]. split; [exact H|].
  exact (points_sum_over_submissions db2 (alice_row 10) db2_reachable H).
Defined.


(** ** Where the code departs from a stated property *)

(** C2 as stated fails: after alice submits the same challenge twice her
    points are 20, while the challenges she has a submission for sum to 10. *)
Lemma points_not_sum_over_challenges :
  reachable (step (PostSubmissions submit_recycle alice_auth t0) db2) /\
  In (alice_row 20)
     (users (step (PostSubmissions submit_recycle alice_auth t0) db2)) /\
  User.points (alice_row 20) = 20 /\
  completed_challenges_total
    (step (PostSubmissions submit_recycle alice_auth t0) db2)
    (User.id (alice_row 20)) = 10.
Proof.
  split; [apply reachable_step; exact db2_reachable|].
  split; [vm_compute; right; left; reflexivity|].
  split; vm_compute; reflexivity.
Qed.


(** C7 as stated fails: issued without a lifetime, a token expires 900
    seconds (15 minutes) after issuance, not 3600. *)
Lemma default_lifetime_is_15_minutes :
  jwt_decode (create_access_token {| sub := Some "alice"; exp := None |} None t0)
             SECRET_KEY (timegm t0) =
    inr {| sub := Some "alice"; exp := Some (timegm t0 + 900) |} /\
  timegm t0 + 900 <> timegm t0 + 60 * 60.
Proof.
  split; [vm_compute; reflexivity | vm_compute; discriminate].
Qed.

(** C10 as stated fails: points do not grow without bound.  alice holds
    the largest storable points value after one submission of a challenge;
    her next submission of the same challenge is answered with a 500, and
    neither a row nor a point is stored. *)
Lemma resubmit_overflows :
  reachable db5 /\
  fst (get_db (get_current_user alice_auth t0) db5) = Ok (alice_row INT64_MAX) /\
  challenge_by_id db5 (sub_challenge_id submit_jackpot) = Some jackpot_row /\
  has_submission db5 (User.id (alice_row INT64_MAX))
                 (sub_challenge_id submit_jackpot) = true /\
  get_db (submit submit_jackpot alice_auth t0) db5 =
    (Raise internal_server_error, db5).
Proof.
  split; [exact db5_reachable|].
  repeat split; vm_compute; reflexivity.
Qed.

(* ================================================================== *)
(** * Further properties of the handlers *)

(** ** No partial commits, nothing removed *)

Section Events.

Context {P : CryptContext} {J : JWT}.

(** X1.  Whatever the route, a request answered with an [HTTPException] leaves
    the database exactly as it was. *)
Theorem failed_request_changes_nothing (ev : Event) (db : Database)
    (e : HTTPException) :
  response_error ev db = Some e -> step ev db = db.
Proof.
  destruct ev as [salt|req salt|req now| |ch auth now|sb auth now| ];
    unfold response_error, step.
  - rewrite seed_admin_unfold.
    destruct (user_by_username db "admin"); discriminate.
  - rewrite register_unfold.
    destruct (user_by_username db (reg_username req)); [reflexivity|].
    destruct (has_nul (reg_password req)); [reflexivity|discriminate].
  - rewrite login_unfold.
    destruct (user_by_username db (login_username req)); [|reflexivity].
    destruct (has_nul (login_password req)); [reflexivity|].
    destruct (pwd_context_verify _ _); reflexivity.
  - reflexivity.
  - rewrite create_challenge_unfold.
    destruct (fst (get_db _ db)); [|reflexivity].
    destruct (String.eqb _ _); [|reflexivity].
    destruct (fits_int64 (new_points ch)); [discriminate|reflexivity].
  - rewrite submit_unfold.
    destruct (fst (get_db _ db)) as [u|]; [|reflexivity].
    destruct (fits_int64 (sub_challenge_id sb)); [|reflexivity].
    destruct (challenge_by_id db (sub_challenge_id sb)) as [c|]; [|reflexivity].
    destruct (fits_int64 (User.points u + Challenge.points c));
      [discriminate|reflexivity].
  - reflexivity.
Qed.

Lemma set_points_identity (uid v : Z) (rows : list User.t) :
  map identity_columns (set_points uid v rows) = map identity_columns rows.
Proof.
  unfold set_points. rewrite map_map. apply map_ext.
  intros r. now destruct (User.id r =? uid).
Qed.

(** X2.  No event removes or rewrites a stored row, a user's points apart: the
    tables after an event are the tables before it (users compared on the
    columns other than points) followed by at most one new row in all. *)
Theorem events_only_append (ev : Event) (db : Database) :
  exists us cs ss,
    map identity_columns (users (step ev db)) =
      (map identity_columns (users db) ++ us)%list /\
    challenges (step ev db) = (challenges db ++ cs)%list /\
    submissions (step ev db) = (submissions db ++ ss)%list /\
    (List.length us + List.length cs + List.length ss <= 1)%nat.
Proof.
  destruct (step_effect ev db) as [|name hashed role F|ch|sb u c Fu Fc].
  - exists [], [], []. rewrite !app_nil_r. repeat split. cbn. lia.
  - eexists [_], [], []. cbn [after_add_user users challenges submissions].
    rewrite map_app, !app_nil_r. repeat split. cbn. lia.
  - eexists [], [_], [].
    cbn [after_create_challenge users challenges submissions].
    rewrite !app_nil_r. repeat split. cbn. lia.
  - eexists [], [], [_]. cbn [after_submit users challenges submissions].
    rewrite set_points_identity, !app_nil_r. repeat split. cbn. lia.
Qed.

End Events.

(** ** Shape of the tables in reachable databases *)

Lemma max_of_seq (n start : nat) :
  fold_right Z.max 0 (map Z.of_nat (seq start n)) =
  match n with
  | O => 0
  | S m => Z.of_nat (start + m)
  end.
Proof.
  revert start. induction n as [|n IH]; intros start; [reflexivity|].
  cbn [seq map fold_right]. rewrite IH.
  destruct n as [|m]; [rewrite Nat.add_0_r; lia|].
  rewrite <- Nat.add_succ_comm. lia.
Qed.

Lemma numbered_next_id (ids : list Z) :
  numbered_from_one ids -> next_id ids = Z.of_nat (List.length ids) + 1.
Proof.
  unfold numbered_from_one, next_id. intros ->.
  rewrite max_of_seq, length_map, length_seq.
  destruct (List.length ids); lia.
Qed.

Lemma numbered_snoc (ids : list Z) :
  numbered_from_one ids -> numbered_from_one (ids ++ [next_id ids]).
Proof.
  intros H. rewrite (numbered_next_id ids H).
  unfold numbered_from_one in *. rewrite length_app. cbn [List.length].
  rewrite Nat.add_1_r, seq_S, map_app, <- H. cbn. do 2 f_equal. lia.
Qed.

Lemma numbered_NoDup (ids : list Z) : numbered_from_one ids -> NoDup ids.
Proof.
  unfold numbered_from_one. intros ->.
  apply Finite.Injective_map_NoDup; [|apply seq_NoDup].
  intros x y. apply Nat2Z.inj.
Qed.

Section Shape.

Context {P : CryptContext} {J : JWT}.

Lemma step_well_formed (ev : Event) (db : Database) :
  well_formed db -> well_formed (step ev db).
Proof.
  intros [Nu Nc Ns Sc (a & rest & Eu & An & Ar & Rs)].
  assert (Fa : user_by_username db "admin" = Some a).
  { unfold user_by_username. rewrite Eu. cbn. now rewrite An. }
  assert (Keep : well_formed db).
  { constructor; try assumption. now exists a, rest. }
  destruct ev as [salt|req salt|req now| |ch auth now|sb auth now| ];
    unfold step.
  - rewrite seed_admin_unfold, Fa. exact Keep.
  - rewrite register_unfold.
    destruct (user_by_username db (reg_username req)); [exact Keep|].
    destruct (has_nul (reg_password req)); [exact Keep|].
    cbn [snd]. constructor;
      cbn [after_add_user users challenges submissions]; try assumption.
    + rewrite map_app. cbn [map User.id]. now apply numbered_snoc.
    + exists a, (rest ++ [User.Build (next_id (map User.id (users db)))
                            (reg_username req)
                            (pwd_context_hash salt (reg_password req))
                            "student" 0])%list.
      rewrite Eu. repeat split; try assumption.
      intros u Hu. apply in_app_or in Hu as [Hu|[<-|[]]]; [now apply Rs|reflexivity].
  - rewrite login_unfold.
    destruct (user_by_username db (login_username req)); [|exact Keep].
    destruct (has_nul (login_password req)); [exact Keep|].
    destruct (pwd_context_verify _ _); exact Keep.
  - exact Keep.
  - rewrite create_challenge_unfold.
    destruct (fst (get_db _ db)); [|exact Keep].
    destruct (String.eqb _ _); [|exact Keep].
    destruct (fits_int64 (new_points ch)); [|exact Keep].
    cbn [snd]. constructor;
      cbn [after_create_challenge users challenges submissions]; try assumption.
    + rewrite map_app. cbn [map Challenge.id]. now apply numbered_snoc.
    + now exists a, rest.
  - rewrite submit_unfold.
    destruct (fst (get_db _ db)) as [u|]; [|exact Keep].
    destruct (fits_int64 (sub_challenge_id sb)); [|exact Keep].
    destruct (challenge_by_id db (sub_challenge_id sb)) as [c|]; [|exact Keep].
    destruct (fits_int64 (User.points u + Challenge.points c)); [|exact Keep].
    cbn [snd]. constructor;
      cbn [after_submit users challenges submissions]; try assumption.
    + now rewrite set_points_ids.
    + rewrite map_app. cbn [map submission_row Submission.id].
      now apply numbered_snoc.
    + intros s Hs. apply in_app_or in Hs as [Hs|[<-|[]]]; [now apply Sc|reflexivity].
    + rewrite Eu. cbn [set_points map].
      eexists _, _. split; [reflexivity|].
      split; [now destruct (User.id a =? User.id u)|].
      split; [now destruct (User.id a =? User.id u)|].
      intros r Hr. apply in_map_iff in Hr as (r0 & <- & Hr0).
      apply Rs in Hr0. now destruct (User.id r0 =? User.id u).
  - exact Keep.
Qed.

Lemma reachable_well_formed (db : Database) : reachable db -> well_formed db.
Proof.
  induction 1 as [salt|ev db _ IH]; [|now apply step_well_formed].
  unfold step. rewrite seed_admin_unfold. cbn [snd user_by_username].
  constructor; cbn; try reflexivity; try contradiction.
  eexists _, []. repeat split. contradiction.
Qed.

(** X3.  Keys are never reused or skipped: in every reachable database the rows
    of each table carry the keys 1, 2, ..., n in insertion order. *)
Theorem reachable_keys_numbered (db : Database) :
  reachable db ->
  map User.id (users db) = map Z.of_nat (seq 1 (List.length (users db))) /\
  map Challenge.id (challenges db) =
    map Z.of_nat (seq 1 (List.length (challenges db))) /\
  map Submission.id (submissions db) =
    map Z.of_nat (seq 1 (List.length (submissions db))).
Proof.
  intros R. destruct (reachable_well_formed db R) as [Nu Nc Ns _ _].
  unfold numbered_from_one in *. rewrite !length_map in *. now repeat split.
Qed.

(** X4.  In every reachable database each stored submission has status
    [completed] and its two foreign keys resolve: a query by key finds the
    user and the challenge it references. *)
Theorem reachable_submissions_resolve (db : Database) (s : Submission.t) :
  reachable db -> In s (submissions db) ->
  Submission.status s = "completed" /\
  (exists u, user_by_id db (Submission.user_id s) = Some u /\
             User.id u = Submission.user_id s) /\
  (exists c, challenge_by_id db (Submission.challenge_id s) = Some c /\
             Challenge.id c = Submission.challenge_id s).
Proof.
  intros R Hs.
  destruct (reachable_well_formed db R) as [_ _ _ Sc _].
  destruct (reachable_consistent db R) as [_ _ Su Sch _].
  split; [now apply Sc|]. split.
  - specialize (Su s Hs). apply in_map_iff in Su as (u & E & Hu).
    unfold user_by_id.
    destruct (find _ (users db)) as [u'|] eqn:F.
    + exists u'. split; [reflexivity|].
      apply find_some in F as [_ F]. now apply Z.eqb_eq.
    + apply (find_none _ _ F) in Hu. cbn in Hu. rewrite E, Z.eqb_refl in Hu.
      discriminate.
  - specialize (Sch s Hs). apply in_map_iff in Sch as (c & E & Hc).
    unfold challenge_by_id.
    destruct (find _ (challenges db)) as [c'|] eqn:F.
    + exists c'. split; [reflexivity|].
      apply find_some in F as [_ F]. now apply Z.eqb_eq.
    + apply (find_none _ _ F) in Hc. cbn in Hc. rewrite E, Z.eqb_refl in Hc.
      discriminate.
Qed.

(** X5.  Usernames are unique in every reachable database: a row stored under a
    name is the row a query by that name returns. *)
Theorem reachable_usernames_unique (db : Database) (u : User.t) :
  reachable db -> In u (users db) ->
  NoDup (map User.username (users db)) /\
  user_by_username db (User.username u) = Some u.
Proof.
  intros R Hu.
  destruct (reachable_consistent db R) as [_ Nn _ _ _].
  split; [exact Nn|].
  unfold user_by_username. revert Nn Hu.
  induction (users db) as [|r rows IH]; cbn; [contradiction|].
  intros N [->|H].
  - now rewrite String.eqb_refl.
  - inversion N as [|? ? Hr N']; subst.
    destruct (String.eqb_spec (User.username r) (User.username u)) as [E|_];
      [|auto].
    exfalso. apply Hr. rewrite E. now apply in_map.
Qed.

(** X6.  Exactly one administrator: in every reachable database the first row
    is the user [admin] with key 1 and role [admin], every other user has
    role [student], and starting the program again seeds nothing. *)
Theorem reachable_single_admin (db : Database) (salt : string) :
  reachable db ->
  (exists a,
     user_by_username db "admin" = Some a /\
     User.id a = 1 /\ User.role a = "admin" /\
     admins db = [a]) /\
  step (Startup salt) db = db.
Proof.
  intros R.
  destruct (reachable_well_formed db R) as [Nu _ _ _ (a & rest & Eu & An & Ar & Rs)].
  assert (Fa : user_by_username db "admin" = Some a).
  { unfold user_by_username. rewrite Eu. cbn. now rewrite An. }
  split.
  - exists a. split; [exact Fa|].
    split; [|split; [exact Ar|]].
    + unfold numbered_from_one in Nu. rewrite Eu in Nu. cbn in Nu.
      now injection Nu as ->.
    + unfold admins. rewrite Eu. cbn [filter]. rewrite Ar. cbn. f_equal.
      clear Eu. induction rest as [|r rest IH]; [reflexivity|].
      cbn [filter]. rewrite (Rs r) by now left. cbn.
      apply IH. intros u Hu. apply Rs. now right.
  - unfold step. now rewrite seed_admin_unfold, Fa.
Qed.

(** X7.  Only the seeded administrator creates challenges: on a reachable
    database, a caller authenticated as [admin] creates the challenge
    whenever its points fit the signed 64-bit column (and gets a 500, with
    nothing stored, when they do not); a caller authenticated under any
    other name is refused with 403 and nothing is stored. *)
Theorem only_admin_creates_challenges (db : Database) (ch : ChallengeCreate)
    (authorization : string) (now : datetime) (u : User.t) :
  reachable db ->
  fst (get_db (get_current_user authorization now) db) = Ok u ->
  (User.username u = "admin" -> fits_int64 (new_points ch) = true ->
     get_db (create_challenge ch authorization now) db =
       (Ok "Challenge created", after_create_challenge db ch)) /\
  (User.username u = "admin" -> fits_int64 (new_points ch) = false ->
     get_db (create_challenge ch authorization now) db =
       (Raise internal_server_error, db)) /\
  (User.username u <> "admin" ->
     get_db (create_challenge ch authorization now) db =
       (Raise (mkHTTPException 403 "Only admin can create challenges"), db)).
Proof.
  intros R Hu.
  destruct (reachable_well_formed db R) as [_ _ _ _ (a & rest & Eu & An & Ar & Rs)].
  pose proof (authenticated_found _ _ _ _ Hu) as Fu.
  rewrite create_challenge_unfold, Hu.
  unfold user_by_username in Fu. rewrite Eu in Fu. cbn [find] in Fu.
  assert (Adm : User.username u = "admin" -> User.role u = "admin").
  { intros En. rewrite En, An in Fu. cbn in Fu. now injection Fu as <-. }
  split; [|split].
  - intros En Hf. now rewrite (Adm En), Hf.
  - intros En Hf. now rewrite (Adm En), Hf.
  - intros Nn.
    destruct (String.eqb_spec (User.username a) (User.username u)) as [E|_].
    + exfalso. apply Nn. now rewrite <- E.
    + apply find_some in Fu as [Hin _]. now rewrite (Rs u Hin).
Qed.

End Shape.

(** ** The guard and the tokens login issues *)

Section Guard.

Context {P : CryptContext} {J : JWT}.

Lemma guard_with_token (token : string) (now : datetime) (db : Database) :
  has_space token = false ->
  get_db (get_current_user ("Bearer " ++ token) now) db =
  (match jwt_decode token SECRET_KEY (timegm now) with
   | inl _ => Raise (mkHTTPException 401 "Invalid token")
   | inr payload =>
       match sub payload with
       | Some "" | None => Raise (mkHTTPException 401 "Invalid token")
       | Some name =>
           match user_by_username db name with
           | Some u => Ok u
           | None => Raise (mkHTTPException 404 "User not found")
           end
       end
   end, db).
Proof.
  intros Hs. destruct (bearer_token token Hs) as [Hb Ht].
  unfold get_db, get_current_user, bind, raise, ret, first_user_by_username,
    user_by_username.
  rewrite Hb, Ht. cbn [negb].
  destruct (jwt_decode _ _ _) as [e|payload]; [reflexivity|].
  destruct (sub payload) as [[|a name]|]; try reflexivity.
  cbn [pending]. destruct (find _ (users db)); reflexivity.
Qed.

(** X8.  The guard verifies the piece of the header between the first and the
    second space and nothing else: whatever follows a further space is
    ignored. *)
Theorem guard_ignores_trailing_pieces (token junk : string) (now : datetime)
    (db : Database) :
  has_space token = false ->
  get_db (get_current_user ("Bearer " ++ token ++ " " ++ junk) now) db =
  get_db (get_current_user ("Bearer " ++ token) now) db.
Proof.
  intros Hs.
  destruct (bearer_token token Hs) as [Hb Ht].
  assert (Hb' : startswith ("Bearer " ++ token ++ " " ++ junk) "Bearer " = true)
    by apply (prefix_app "Bearer ").
  assert (Ht' : nth_error (split ("Bearer " ++ token ++ " " ++ junk) " ") 1
                = Some token).
  { change ("Bearer " ++ token ++ " " ++ junk)
      with ("Bearer" ++ String " " (token ++ String " " junk)).
    rewrite split_at_sep by reflexivity.
    now rewrite (split_at_sep token junk " " Hs). }
  unfold get_db, get_current_user, bind.
  now rewrite Hb, Ht, Hb', Ht'.
Qed.


Context {JL : JWTLaws J}.

(** X10.  What the guard answers to a token signed with the service's key:
    401 when its expiry is earlier than the clock (in whole seconds) or its
    subject is absent or empty, 404 when no user has the subject as
    name, and otherwise the first row with that name. *)
Theorem guard_on_signed_token (claims : Claims) (now : datetime) (db : Database) :
  get_db (get_current_user ("Bearer " ++ jwt_encode claims SECRET_KEY) now) db =
  (match exp claims with
   | Some e =>
       if e <? timegm now then Raise (mkHTTPException 401 "Invalid token")
       else match sub claims with
            | Some "" | None => Raise (mkHTTPException 401 "Invalid token")
            | Some name =>
                match user_by_username db name with
                | Some u => Ok u
                | None => Raise (mkHTTPException 404 "User not found")
                end
            end
   | None =>
       match sub claims with
       | Some "" | None => Raise (mkHTTPException 401 "Invalid token")
       | Some name =>
           match user_by_username db name with
           | Some u => Ok u
           | None => Raise (mkHTTPException 404 "User not found")
           end
       end
   end, db).
Proof.
  rewrite guard_with_token by apply encode_no_space.
  rewrite decode_encode.
  destruct (exp claims) as [e|]; [|reflexivity].
  destruct (e <? timegm now); reflexivity.
Qed.

Lemma login_token (req : LoginRequest) (now : datetime) (db db' : Database)
    (resp : LoginResponse) :
  get_db (login req now) db = (Ok resp, db') ->
  access_token resp =
  jwt_encode {| sub := Some (login_username req);
                exp := Some (timegm now + 3600) |} SECRET_KEY.
Proof.
  rewrite login_unfold.
  destruct (user_by_username db (login_username req)) as [u|]; [|discriminate].
  destruct (has_nul (login_password req)); [discriminate|].
  destruct (pwd_context_verify _ _); [|discriminate].
  intros H.
  assert (access_token resp =
          create_access_token {| sub := Some (login_username req); exp := None |}
            (Some (timedelta_minutes ACCESS_TOKEN_EXPIRE_MINUTES)) now) as ->
    by (injection H as <- _; reflexivity).
  unfold create_access_token.
  change (timedelta_minutes ACCESS_TOKEN_EXPIRE_MINUTES =? 0) with false.
  cbv iota. now rewrite timegm_add_minutes.
Qed.

(** X11.  The token login returns works as a credential for one hour: presented
    to the guard at a clock reading at most 3600 whole seconds after
    issuance, on any database where the name resolves, it yields the row
    stored under that name; later it is refused with 401. *)
Theorem login_token_authenticates (req : LoginRequest) (now clock : datetime)
    (db db' dbc : Database) (resp : LoginResponse) (u : User.t) :
  get_db (login req now) db = (Ok resp, db') ->
  login_username req <> "" ->
  user_by_username dbc (login_username req) = Some u ->
  (timegm clock <= timegm now + 3600 ->
     get_db (get_current_user ("Bearer " ++ access_token resp) clock) dbc =
       (Ok u, dbc)) /\
  (timegm now + 3600 < timegm clock ->
     get_db (get_current_user ("Bearer " ++ access_token resp) clock) dbc =
       (Raise (mkHTTPException 401 "Invalid token"), dbc)).
Proof.
  intros L Hn Fu. rewrite (login_token _ _ _ _ _ L).
  rewrite guard_with_token by apply encode_no_space.
  rewrite decode_encode. cbn [exp sub]. split; intros Hc.
  - destruct (Z.ltb_spec (timegm now + 3600) (timegm clock)); [lia|].
    destruct (login_username req) as [|a name]; [congruence|].
    cbn [sub]. now rewrite Fu.
  - destruct (Z.ltb_spec (timegm now + 3600) (timegm clock)); [reflexivity|lia].
Qed.

Context {PL : CryptContextLaws P}.


End Guard.

(** ** Challenges, leaderboard and totals *)

Section Listings.

Context {P : CryptContext} {J : JWT}.

(** X13.  A challenge the administrator creates, with points that fit
    the signed 64-bit column, is listed at once: the listing afterwards is
    the listing before followed by one row with the submitted title,
    description and points and the next key, and listing changes nothing. *)
Theorem created_challenge_is_listed (db : Database) (ch : ChallengeCreate)
    (authorization : string) (now : datetime) (u : User.t) :
  reachable db ->
  fst (get_db (get_current_user authorization now) db) = Ok u ->
  User.role u = "admin" ->
  fits_int64 (new_points ch) = true ->
  exists db',
    get_db (create_challenge ch authorization now) db = (Ok "Challenge created", db') /\
    get_db get_challenges db' =
      (Ok (challenges db ++
           [Challenge.Build (Z.of_nat (List.length (challenges db)) + 1)
                            (new_title ch) (new_description ch) (new_points ch)])%list,
       db') /\
    users db' = users db /\
    submissions db' = submissions db.
Proof.
  intros R Hu Hr Hf.
  destruct (reachable_well_formed db R) as [_ Nc _ _ _].
  exists (after_create_challenge db ch).
  rewrite create_challenge_unfold, Hu, Hr, Hf. cbn [String.eqb].
  split; [reflexivity|]. split; [|now split].
  unfold get_db, get_challenges, all_challenges. cbn [pending stored].
  unfold after_create_challenge. cbn [challenges].
  rewrite (numbered_next_id _ Nc), length_map. reflexivity.
Qed.

(** X14.  On a reachable database the leaderboard names each registered user
    exactly once: its usernames are pairwise distinct, and a name is on the
    board exactly when a user is stored under it. *)
Theorem leaderboard_names_users (db : Database) (board : list LeaderboardEntry) :
  reachable db ->
  fst (get_db leaderboard db) = Ok board ->
  NoDup (map lb_username board) /\
  forall name,
    In name (map lb_username board) <->
    exists u, user_by_username db name = Some u.
Proof.
  intros R [= <-].
  destruct (reachable_consistent db R) as [_ Nn _ _ _].
  assert (Hperm : Permutation (map User.username (users db))
                    (map lb_username
                       (map leaderboard_entry (order_by_points_desc (users db))))).
  { rewrite map_map. cbn [leaderboard_entry lb_username].
    apply Permutation_map. apply UserSort.Permuted_sort. }
  split; [now apply (Permutation_NoDup Hperm)|].
  intros name. split.
  - intros H. apply (Permutation_in _ (Permutation_sym Hperm)) in H.
    apply in_map_iff in H as (u & E & Hu).
    unfold user_by_username.
    destruct (find _ (users db)) as [u'|] eqn:F; [now exists u'|].
    apply (find_none _ _ F) in Hu. cbn in Hu.
    rewrite E, String.eqb_refl in Hu. discriminate.
  - intros [u F]. apply (Permutation_in _ Hperm).
    apply user_by_username_in in F as [Hu <-]. now apply in_map.
Qed.

Lemma total_after_set_points (rows : list User.t) (u : User.t) (v : Z) :
  NoDup (map User.id rows) -> In u rows ->
  sumZ (map User.points (set_points (User.id u) v rows)) =
  sumZ (map User.points rows) - User.points u + v.
Proof.
  induction rows as [|r rows IH]; [contradiction|].
  intros N Hu. inversion N as [|? ? Hr N']; subst.
  change (set_points (User.id u) v (r :: rows))
    with ((if User.id r =? User.id u then User.with_points r v else r)
          :: set_points (User.id u) v rows).
  cbn [map sumZ fold_right]. fold (sumZ (map User.points rows)).
  fold (sumZ (map User.points (set_points (User.id u) v rows))).
  destruct Hu as [->|Hu].
  - rewrite Z.eqb_refl. cbn [User.points User.with_points].
    assert (E : set_points (User.id u) v rows = rows).
    { unfold set_points. rewrite <- (map_id rows) at 2. apply map_ext_in.
      intros x Hx. destruct (Z.eqb_spec (User.id x) (User.id u)) as [E|_];
        [|reflexivity].
      exfalso. apply Hr. rewrite <- E. now apply in_map. }
    rewrite E. lia.
  - destruct (Z.eqb_spec (User.id r) (User.id u)) as [E|_].
    + exfalso. apply Hr. rewrite E. now apply in_map.
    + rewrite (IH N' Hu). lia.
Qed.

Lemma effect_totals (db db' : Database) :
  effect db db' -> consistent db ->
  total_points db = total_rewards db ->
  total_points db' = total_rewards db'.
Proof.
  intros E [Nid _ _ Sc _] T.
  destruct E as [|name hashed role F|ch|sb u c Fu Fc].
  - exact T.
  - unfold total_points, total_rewards, after_add_user in *.
    cbn [users submissions]. rewrite map_app, sumZ_app. cbn.
    change (sumZ (map User.points (users db)) + 0 =
            sumZ (map (reward db) (submissions db))).
    rewrite Z.add_0_r. exact T.
  - unfold total_points, total_rewards in *.
    cbn [after_create_challenge users submissions]. rewrite T. f_equal.
    apply map_ext_in. intros s Hs. symmetry.
    apply reward_after_create_challenge. now apply Sc.
  - apply user_by_username_in in Fu as [Hu _].
    unfold total_points, total_rewards in *.
    cbn [after_submit users submissions].
    rewrite (total_after_set_points _ _ _ Nid Hu), map_app, sumZ_app.
    change (map (reward (after_submit db sb u c)) (submissions db))
      with (map (reward db) (submissions db)).
    change (sumZ (map (reward (after_submit db sb u c)) [submission_row db sb u]))
      with (reward db (submission_row db sb u) + 0).
    assert (Er : reward db (submission_row db sb u) = Challenge.points c).
    { unfold reward.
      change (Submission.challenge_id (submission_row db sb u))
        with (sub_challenge_id sb).
      now rewrite Fc. }
    rewrite Er, T. lia.
Qed.

(** X15.  Points are conserved: in every reachable database the points of all
    users add up to the rewards of all submission rows. *)
Theorem total_points_match_submissions (db : Database) :
  reachable db -> total_points db = total_rewards db.
Proof.
  induction 1 as [salt|ev db R IH].
  - apply (effect_totals empty_database); [apply step_effect| |reflexivity].
    apply empty_consistent.
  - apply (effect_totals db); [apply step_effect | | exact IH].
    now apply reachable_consistent.
Qed.

End Listings.

(** ** End to end *)

Section EndToEnd.

Context {P : CryptContext} {J : JWT}.

Lemma reachable_admin_row (db : Database) :
  reachable db ->
  exists a rest salt,
    users db = a :: rest /\
    User.username a = "admin" /\
    User.hashed_password a = pwd_context_hash salt "admin123" /\
    User.role a = "admin".
Proof.
  induction 1 as [salt|ev db _ (a & rest & salt & Eu & An & Ah & Ar)].
  - unfold step. rewrite seed_admin_unfold. cbn [snd user_by_username].
    eexists _, [], salt. cbn. repeat split.
  - destruct (step_effect ev db) as [|name hashed role F|ch|sb u c Fu Fc].
    + now exists a, rest, salt.
    + cbn [after_add_user users]. rewrite Eu.
      eexists a, _, salt. split; [reflexivity|]. now repeat split.
    + now exists a, rest, salt.
    + cbn [after_submit users]. rewrite Eu. cbn [set_points map].
      eexists _, _, salt. split; [reflexivity|].
      destruct (User.id a =? User.id u); now repeat split.
Qed.

Context {PL : CryptContextLaws P} {JL : JWTLaws J}.

(** X16.  The seeded credentials always work: in every reachable database
    a login as [admin] with password [admin123] succeeds with role [admin],
    and the returned token, presented within 3600 whole seconds, creates any
    challenge whose points fit the signed 64-bit column. *)
Theorem default_admin_credentials (db : Database) (now clock : datetime)
    (ch : ChallengeCreate) :
  reachable db ->
  timegm clock <= timegm now + 3600 ->
  fits_int64 (new_points ch) = true ->
  exists resp,
    get_db (login {| login_username := "admin";
                     login_password := "admin123" |} now) db = (Ok resp, db) /\
    resp_role resp = "admin" /\
    get_db (create_challenge ch ("Bearer " ++ access_token resp) clock) db =
      (Ok "Challenge created", after_create_challenge db ch).
Proof.
  intros R Hc Hf.
  destruct (reachable_admin_row db R) as (a & rest & salt & Eu & An & Ah & Ar).
  assert (Fa : user_by_username db "admin" = Some a).
  { unfold user_by_username. rewrite Eu. cbn. now rewrite An. }
  assert (L : exists resp,
             get_db (login {| login_username := "admin";
                              login_password := "admin123" |} now) db =
               (Ok resp, db) /\ resp_role resp = "admin").
  { eexists. rewrite login_unfold. cbn [login_username login_password].
    change (has_nul "admin123") with false. cbv iota.
    rewrite Fa, Ah, verify_hash. split; [reflexivity|exact Ar]. }
  destruct L as (resp & L & Hr). exists resp.
  split; [exact L|]. split; [exact Hr|].
  rewrite create_challenge_unfold, (login_token _ _ _ _ _ L).
  rewrite guard_with_token by apply encode_no_space.
  rewrite decode_encode. cbn [exp sub login_username fst].
  destruct (Z.ltb_spec (timegm now + 3600) (timegm clock)); [lia|].
  cbn [sub]. rewrite Fa. now rewrite Ar, Hf.
Qed.


End EndToEnd.

(** ** Protected routes *)

Section Protected.

Context {J : JWT}.

(** X18.  The guard runs before the body of a protected route: when it refuses
    the header, Create Challenge and Submit answer with the guard's error,
    whatever the request body says, and store nothing. *)
Theorem guard_errors_come_first (authorization : string) (now : datetime)
    (db : Database) (e : HTTPException) (ch : ChallengeCreate)
    (sb : SubmissionCreate) :
  fst (get_db (get_current_user authorization now) db) = Raise e ->
  get_db (create_challenge ch authorization now) db = (Raise e, db) /\
  get_db (submit sb authorization now) db = (Raise e, db).
Proof.
  intros H. now rewrite create_challenge_unfold, submit_unfold, H.
Qed.

End Protected.

Section Others.

Context {P : CryptContext} {J : JWT}.

(** X19.  A submission touches the caller's row only: on a reachable database
    every other user's row is still found under its key, unchanged, after
    a successful Submit. *)
Theorem submit_leaves_others_alone (db : Database) (sb : SubmissionCreate)
    (authorization : string) (now : datetime) (u v : User.t) (c : Challenge.t) :
  reachable db ->
  fst (get_db (get_current_user authorization now) db) = Ok u ->
  challenge_by_id db (sub_challenge_id sb) = Some c ->
  In v (users db) ->
  User.id v <> User.id u ->
  user_by_id (snd (get_db (submit sb authorization now) db)) (User.id v) = Some v.
Proof.
  intros R Hu Hc Hv Hne.
  destruct (reachable_consistent db R) as [Nid _ _ _ _].
  pose proof (user_by_id_unique db v Nid Hv) as Fv.
  rewrite submit_unfold, Hu, Hc.
  destruct (fits_int64 (sub_challenge_id sb)); [|exact Fv].
  destruct (fits_int64 (User.points u + Challenge.points c)); [|exact Fv].
  cbn [snd]. unfold user_by_id in *. cbn [after_submit users].
  rewrite (user_by_id_set_points _ _ _ _ _ Fv).
  destruct (Z.eqb_spec (User.id v) (User.id u)); [contradiction|reflexivity].
Qed.

End Others.

Lemma guard_errors_come_first_witness :
  fst (get_db (get_current_user "Basic abc" t0) db2) =
    Raise (mkHTTPException 401 "Invalid auth header") /\
  get_db (submit submit_missing "Basic abc" t0) db2 =
    (Raise (mkHTTPException 401 "Invalid auth header"), db2).
Proof.
  assert (H : fst (get_db (get_current_user "Basic abc" t0) db2) =
              Raise (mkHTTPException 401 "Invalid auth header"))
    by (vm_compute; reflexivity).
  split; [exact H|].
  exact (proj2 (guard_errors_come_first "Basic abc" t0 db2 _ penalty
                  submit_missing H)).
Defined.

Lemma submit_leaves_others_alone_witness :
  reachable db2 /\
  fst (get_db (get_current_user alice_auth t0) db2) = Ok (alice_row 10) /\
  challenge_by_id db2 (sub_challenge_id submit_recycle) = Some recycle_row /\
  In (User.Build 1 "admin" "admin123$s0" "admin" 0) (users db2) /\
  1 <> User.id (alice_row 10) /\
  user_by_id (snd (get_db (submit submit_recycle alice_auth t0) db2)) 1 =
    Some (User.Build 1 "admin" "admin123$s0" "admin" 0).
Proof.
  assert (Hu : fst (get_db (get_current_user alice_auth t0) db2) = Ok (alice_row 10))
    by (vm_compute; reflexivity).
  assert (Hc : challenge_by_id db2 (sub_challenge_id submit_recycle) = Some recycle_row)
    by (vm_compute; reflexivity).
  assert (Hv : In (User.Build 1 "admin" "admin123$s0" "admin" 0) (users db2))
    by (vm_compute; left; reflexivity).
  assert (Hn : 1 <> User.id (alice_row 10)) by (vm_compute; discriminate).
  split; [exact db2_reachable|]. split; [exact Hu|]. split; [exact Hc|].
  split; [exact Hv|]. split; [exact Hn|].
  exact (submit_leaves_others_alone db2 submit_recycle alice_auth t0
           (alice_row 10) _ recycle_row db2_reachable Hu Hc Hv Hn).
Defined.

(** ** The further properties on the scenario *)

Lemma failed_request_changes_nothing_witness :
  response_error (PostSubmissions submit_missing alice_auth t0) db1 =
    Some (mkHTTPException 404 "Challenge not found") /\
  step (PostSubmissions submit_missing alice_auth t0) db1 = db1.
Proof.
  assert (H : response_error (PostSubmissions submit_missing alice_auth t0) db1 =
              Some (mkHTTPException 404 "Challenge not found"))
    by (vm_compute; reflexivity).
  split; [exact H|].
  exact (failed_request_changes_nothing _ _ _ H).
Defined.

Lemma reachable_keys_numbered_witness :
  reachable db2 /\ map User.id (users db2) = [1; 2].
Proof.
  split; [exact db2_reachable|].
  exact (proj1 (reachable_keys_numbered db2 db2_reachable)).
Defined.

Lemma reachable_submissions_resolve_witness :
  reachable db2 /\
  In (Submission.Build 1 "photo" "completed" 2 1) (submissions db2) /\
  exists u, user_by_id db2 2 = Some u /\ User.id u = 2.
Proof.
  assert (H : In (Submission.Build 1 "photo" "completed" 2 1) (submissions db2))
    by (vm_compute; left; reflexivity).
  split; [exact db2_reachable|]. split; [exact H|].
  exact (proj1 (proj2 (reachable_submissions_resolve db2 _ db2_reachable H))).
Defined.

Lemma reachable_usernames_unique_witness :
  reachable db2 /\ In (alice_row 10) (users db2) /\
  user_by_username db2 "alice" = Some (alice_row 10).
Proof.
  assert (H : In (alice_row 10) (users db2)) by (vm_compute; right; left; reflexivity).
  split; [exact db2_reachable|]. split; [exact H|].
  exact (proj2 (reachable_usernames_unique db2 (alice_row 10) db2_reachable H)).
Defined.

Lemma reachable_single_admin_witness :
  reachable db2 /\ step (Startup "again") db2 = db2.
Proof.
  split; [exact db2_reachable|].
  exact (proj2 (reachable_single_admin db2 "again" db2_reachable)).
Defined.

Lemma only_admin_creates_challenges_witness :
  reachable db2 /\
  fst (get_db (get_current_user alice_auth t0) db2) = Ok (alice_row 10) /\
  User.username (alice_row 10) <> "admin" /\
  get_db (create_challenge penalty alice_auth t0) db2 =
    (Raise (mkHTTPException 403 "Only admin can create challenges"), db2).
Proof.
  assert (Hu : fst (get_db (get_current_user alice_auth t0) db2) = Ok (alice_row 10))
    by (vm_compute; reflexivity).
  assert (Hn : User.username (alice_row 10) <> "admin") by (vm_compute; discriminate).
  split; [exact db2_reachable|]. split; [exact Hu|]. split; [exact Hn|].
  exact (proj2 (proj2 (only_admin_creates_challenges db2 penalty alice_auth t0
                         (alice_row 10) db2_reachable Hu)) Hn).
Defined.

Lemma guard_ignores_trailing_pieces_witness :
  has_space alice_token = false /\
  get_db (get_current_user ("Bearer " ++ alice_token ++ " " ++ "and more") t0) db2 =
  get_db (get_current_user ("Bearer " ++ alice_token) t0) db2.
Proof.
  assert (H : has_space alice_token = false) by (vm_compute; reflexivity).
  split; [exact H|].
  exact (guard_ignores_trailing_pieces alice_token "and more" t0 db2 H).
Defined.

Lemma guard_on_signed_token_witness :
  get_db (get_current_user
            ("Bearer " ++ jwt_encode {| sub := Some "nobody"; exp := None |} SECRET_KEY)
            t0) db2 =
  (Raise (mkHTTPException 404 "User not found"), db2).
Proof.
  exact (guard_on_signed_token {| sub := Some "nobody"; exp := None |} t0 db2).
Defined.

Lemma login_token_authenticates_witness :
  exists resp,
    get_db (login alice_login t0) db1 = (Ok resp, db1) /\
    login_username alice_login <> "" /\
    user_by_username db2 (login_username alice_login) = Some (alice_row 10) /\
    timegm (t0 + 1) <= timegm t0 + 3600 /\
    get_db (get_current_user ("Bearer " ++ access_token resp) (t0 + 1)) db2 =
      (Ok (alice_row 10), db2).
Proof.
  eexists.
  assert (L : get_db (login alice_login t0) db1 = (Ok _, db1))
    by (vm_compute; reflexivity).
  assert (Hn : login_username alice_login <> "") by (vm_compute; discriminate).
  assert (Fu : user_by_username db2 (login_username alice_login) = Some (alice_row 10))
    by (vm_compute; reflexivity).
  assert (Hc : timegm (t0 + 1) <= timegm t0 + 3600) by (vm_compute; discriminate).
  split; [exact L|]. split; [exact Hn|]. split; [exact Fu|]. split; [exact Hc|].
  exact (proj1 (login_token_authenticates alice_login t0 (t0 + 1) db1 db1 db2 _
                  (alice_row 10) L Hn Fu) Hc).
Defined.



Lemma created_challenge_is_listed_witness :
  reachable db2 /\
  fst (get_db (get_current_user admin_auth t0) db2) =
    Ok (User.Build 1 "admin" "admin123$s0" "admin" 0) /\
  fits_int64 (new_points penalty) = true /\
  exists db',
    get_db (create_challenge penalty admin_auth t0) db2 = (Ok "Challenge created", db') /\
    List.length (challenges db') = 2%nat.
Proof.
  assert (Hu : fst (get_db (get_current_user admin_auth t0) db2) =
               Ok (User.Build 1 "admin" "admin123$s0" "admin" 0))
    by (vm_compute; reflexivity).
  assert (Hf : fits_int64 (new_points penalty) = true) by reflexivity.
  split; [exact db2_reachable|]. split; [exact Hu|]. split; [exact Hf|].
  destruct (created_challenge_is_listed db2 penalty admin_auth t0 _
              db2_reachable Hu eq_refl Hf) as (db' & C & L & _).
  exists db'. split; [exact C|].
  unfold get_db, get_challenges, all_challenges in L. cbn in L.
  injection L as L. rewrite L. reflexivity.
Defined.

Lemma leaderboard_names_users_witness :
  reachable db2 /\
  exists board,
    fst (get_db leaderboard db2) = Ok board /\
    NoDup (map lb_username board).
Proof.
  split; [exact db2_reachable|].
  eexists. split; [reflexivity|].
  exact (proj1 (leaderboard_names_users db2 _ db2_reachable eq_refl)).
Defined.

Lemma total_points_match_submissions_witness :
  reachable db2 /\ total_points db2 = total_rewards db2.
Proof.
  split; [exact db2_reachable|].
  exact (total_points_match_submissions db2 db2_reachable).
Defined.

Lemma default_admin_credentials_witness :
  reachable db2 /\ timegm (t0 + 5) <= timegm t0 + 3600 /\
  fits_int64 (new_points penalty) = true /\
  exists resp,
    get_db (login {| login_username := "admin";
                     login_password := "admin123" |} t0) db2 = (Ok resp, db2) /\
    resp_role resp = "admin" /\
    get_db (create_challenge penalty ("Bearer " ++ access_token resp) (t0 + 5)) db2 =
      (Ok "Challenge created", after_create_challenge db2 penalty).
Proof.
  assert (Hc : timegm (t0 + 5) <= timegm t0 + 3600) by (vm_compute; discriminate).
  assert (Hf : fits_int64 (new_points penalty) = true) by reflexivity.
  split; [exact db2_reachable|]. split; [exact Hc|]. split; [exact Hf|].
  exact (default_admin_credentials db2 t0 (t0 + 5) penalty db2_reachable Hc Hf).
Defined.

